(** * Employee service: a shallow embedding of [api/routes.py]

    The handlers of [src/api/routes.py] are embedded over a small model of
    the SQLAlchemy session they talk to.  The table [employees] of
    [src/db/models.py] is a list of rows in rowid order; a handler is a
    computation in a state-and-exception monad over the session; [run]
    plays the role of the FastAPI request cycle (open a session, call the
    handler, close the session, turn an exception into a status code).

    Conventions.
    - Python [float] values (salary, performance rating) are idealised as
      rationals [Q]; timestamps are integers (seconds).  A handler that
      writes takes [now], the reading of the database clock ([func.now()])
      during the request.
    - Payloads are the validated pydantic objects the handlers receive;
      validation itself (422) happens before a handler runs.
    - Python [str] is [string]; an [Optional[str]] is truthy when it is
      neither [None] nor empty, which the handlers test by a match on the
      option and a comparison with the empty string.
    - A field of [EmployeeUpdate] is [option (option T)]: the outer option
      is membership in [model_fields_set] (what [exclude_unset=True] keeps),
      the inner one is the JSON value, [None] for [null].
    - The integers of a request ([employee_id], [skip], [limit]) are [Z],
      as Python's are unbounded; the database driver binds them as 64-bit
      integers and raises for one that does not fit. *)

From Stdlib Require Import List ZArith QArith Qround String Ascii Bool Lia.
From Stdlib Require Import DecimalString.
Import ListNotations.
Local Open Scope string_scope.
Local Open Scope list_scope.
Local Open Scope Z_scope.

Set Implicit Arguments.

(** ** Rows and payloads *)

(** [db/models.py], class [Employee].  [name], [role] and [salary] are
    [nullable=False]; [created_at] has [server_default=func.now()]. *)
Record Employee : Type := mkEmployee {
  id : Z;
  name : string;
  role : string;
  salary : Q;
  email : option string;
  department : option string;
  performance_rating : option Q;
  skills : option string;
  created_at : Z;
  updated_at : option Z
}.

Definition Table : Type := list Employee.

(** [schemas/employee.py], class [EmployeeCreate] (= [EmployeeBase]). *)
Record EmployeeCreate : Type := mkCreate {
  c_name : string;
  c_role : string;
  c_salary : Q;
  c_email : option string;
  c_department : option string;
  c_performance_rating : option Q;
  c_skills : option string
}.

(** [schemas/employee.py], class [EmployeeUpdate]. *)
Record EmployeeUpdate : Type := mkUpdate {
  u_name : option (option string);
  u_role : option (option string);
  u_salary : option (option Q);
  u_email : option (option string);
  u_department : option (option string);
  u_performance_rating : option (option Q);
  u_skills : option (option string)
}.

(** The attribute dictionary of a mapped [Employee] object: every column
    may hold [None] until the flush checks the constraints. *)
Record Attrs : Type := mkAttrs {
  a_name : option string;
  a_role : option string;
  a_salary : option Q;
  a_email : option string;
  a_department : option string;
  a_performance_rating : option Q;
  a_skills : option string
}.

(** ** Python and SQL value tests *)

Definition opt_eqb {A} (eqb : A -> A -> bool) (x y : option A) : bool :=
  match x, y with
  | Some a, Some b => eqb a b
  | None, None => true
  | _, _ => false
  end.

Definition str_opt_eqb : option string -> option string -> bool :=
  opt_eqb String.eqb.

Definition q_opt_eqb : option Q -> option Q -> bool := opt_eqb Qeq_bool.

(** SQL [column = value] with a non-NULL value: NULL columns never match. *)
Definition sql_eq (col : option string) (v : string) : bool :=
  match col with
  | Some s => String.eqb s v
  | None => false
  end.

(** *** [LIKE]

    [Employee.name.contains(search)] renders as
    [name LIKE '%' || :search || '%'].  The operator is SQLite's, the
    engine of the default [DATABASE_URL] in [core/config.py]: [%] matches
    any run of characters, [_] one character, and letters compare without
    regard to ASCII case. *)

Definition lower (c : ascii) : ascii :=
  let n := nat_of_ascii c in
  if ((65 <=? n) && (n <=? 90))%nat then ascii_of_nat (n + 32) else c.

Definition percent : ascii := "%"%char.
Definition underscore : ascii := "_"%char.

Fixpoint like (pat : string) : string -> bool :=
  match pat with
  | EmptyString => fun s => match s with EmptyString => true | _ => false end
  | String c pat' =>
      if Ascii.eqb c percent then
        fix star (s : string) : bool :=
          like pat' s ||
          match s with
          | EmptyString => false
          | String _ s' => star s'
          end
      else if Ascii.eqb c underscore then
        fun s => match s with
                 | EmptyString => false
                 | String _ s' => like pat' s'
                 end
      else
        fun s => match s with
                 | EmptyString => false
                 | String d s' => Ascii.eqb (lower c) (lower d) && like pat' s'
                 end
  end.

Definition contains (col search : string) : bool :=
  like ("%" ++ search ++ "%")%string col.

(** ** The session monad *)

Inductive Exception : Type :=
| HTTPException (status_code : Z) (detail : string)
| IntegrityError (constraint : string)
| InvalidRequestError (message : string)
| OverflowError
| PendingRollbackError.

Inductive Outcome (A : Type) : Type :=
| Return (a : A)
| Raise (e : Exception).
Arguments Raise {A} e.

(** [rows] is what the statements of the open transaction see, [persisted]
    the last committed table.  A failed flush rolls the transaction back
    and leaves the session [inactive] until [rollback()] is called, which
    no handler does. *)
Record Session : Type := mkSession {
  rows : Table;
  persisted : Table;
  inactive : bool
}.

Definition M (A : Type) : Type := Session -> Outcome A * Session.

Definition ret {A} (a : A) : M A := fun s => (Return a, s).

Definition raise {A} (e : Exception) : M A := fun s => (Raise e, s).

Definition bind {A B} (m : M A) (k : A -> M B) : M B :=
  fun s =>
    match m s with
    | (Return a, s') => k a s'
    | (Raise e, s') => (Raise e, s')
    end.

(** [try: body  except Exception as e: handler(e)] *)
Definition try_except {A} (body : M A) (handler : Exception -> M A) : M A :=
  fun s =>
    match body s with
    | (Return a, s') => (Return a, s')
    | (Raise e, s') => handler e s'
    end.

Declare Scope session_scope.
Delimit Scope session_scope with session.
Notation "x <- m ;; k" := (bind m (fun x => k))
  (at level 61, m at next level, right associativity) : session_scope.
Notation "m ;; k" := (bind m (fun _ => k))
  (at level 61, right associativity) : session_scope.
Local Open Scope session_scope.

(** *** Statements *)

(** A SELECT in the open transaction. *)
Definition select : M Table :=
  fun s => if inactive s then (Raise PendingRollbackError, s)
           else (Return (rows s), s).

(** A flush that fails: the transaction is rolled back. *)
Definition flush_error {A} (e : Exception) : M A :=
  fun s => (Raise e, mkSession (persisted s) (persisted s) true).

(** SQLite rowid allocation for [INTEGER PRIMARY KEY]: 1 on an empty
    table, otherwise one more than the largest rowid in use. *)
Definition next_id (t : Table) : Z :=
  match t with
  | [] => 1
  | e :: t' => fold_left Z.max (map id t') (id e) + 1
  end.

(** UNIQUE index on [email]: a non-NULL value held by a row other than
    the one being written. *)
Definition email_taken (t : Table) (self : option Z) (v : option string) : bool :=
  match v with
  | None => false
  | Some x =>
      existsb (fun e => sql_eq (email e) x &&
                        match self with
                        | Some i => negb (id e =? i)
                        | None => true
                        end) t
  end.

Definition unique_failed : Exception :=
  IntegrityError "UNIQUE constraint failed: employees.email".

Definition not_null_failed (col : string) : Exception :=
  IntegrityError ("NOT NULL constraint failed: employees." ++ col)%string.

(** The keyword arguments of the [Employee] constructor: [model_dump()]. *)
Definition model_dump (p : EmployeeCreate) : Attrs :=
  mkAttrs (Some (c_name p)) (Some (c_role p)) (Some (c_salary p))
          (c_email p) (c_department p) (c_performance_rating p) (c_skills p).

(** [db.add(obj)] followed by the flush that emits the INSERT.  A [None]
    attribute is left out of the INSERT, so the column default applies:
    [0.0] for [performance_rating], NULL elsewhere; [created_at] takes the
    server default and [updated_at] stays NULL. *)
Definition add_flush (now : Z) (a : Attrs) : M Employee :=
  fun s =>
    if inactive s then (Raise PendingRollbackError, s) else
    match a_name a, a_role a, a_salary a with
    | None, _, _ => flush_error (not_null_failed "name") s
    | _, None, _ => flush_error (not_null_failed "role") s
    | _, _, None => flush_error (not_null_failed "salary") s
    | Some n, Some r, Some sal =>
        if email_taken (rows s) None (a_email a) then flush_error unique_failed s
        else
          let e := mkEmployee (next_id (rows s)) n r sal (a_email a)
                     (a_department a)
                     (Some (match a_performance_rating a with
                            | Some x => x
                            | None => 0%Q
                            end))
                     (a_skills a) now None in
          (Return e, mkSession (rows s ++ [e]) (persisted s) false)
    end.

(** The attributes loaded from a row. *)
Definition of_row (e : Employee) : Attrs :=
  mkAttrs (Some (name e)) (Some (role e)) (Some (salary e))
          (email e) (department e) (performance_rating e) (skills e).

(** The comparison the unit of work makes between the current and the
    loaded value of each attribute: only attributes that differ are
    written. *)
Definition net_change (old new : Attrs) : bool :=
  negb (str_opt_eqb (a_name old) (a_name new)
        && str_opt_eqb (a_role old) (a_role new)
        && q_opt_eqb (a_salary old) (a_salary new)
        && str_opt_eqb (a_email old) (a_email new)
        && str_opt_eqb (a_department old) (a_department new)
        && q_opt_eqb (a_performance_rating old) (a_performance_rating new)
        && str_opt_eqb (a_skills old) (a_skills new)).

(** The flush of a dirty object loaded as row [e] and now holding [a].
    Without a net change no UPDATE is emitted, so [onupdate=func.now()]
    does not fire.  Otherwise the UPDATE, keyed by the primary key, writes
    the changed columns and [updated_at]. *)
Definition flush_update (now : Z) (e : Employee) (a : Attrs) : M unit :=
  fun s =>
    if inactive s then (Raise PendingRollbackError, s) else
    if negb (net_change (of_row e) a) then (Return tt, s) else
    match a_name a, a_role a, a_salary a with
    | None, _, _ => flush_error (not_null_failed "name") s
    | _, None, _ => flush_error (not_null_failed "role") s
    | _, _, None => flush_error (not_null_failed "salary") s
    | Some n, Some r, Some sal =>
        if negb (str_opt_eqb (email e) (a_email a))
           && email_taken (rows s) (Some (id e)) (a_email a)
        then flush_error unique_failed s
        else
          let e' := mkEmployee (id e) n r sal (a_email a) (a_department a)
                      (a_performance_rating a) (a_skills a)
                      (created_at e) (Some now) in
          (Return tt,
           mkSession (map (fun r => if id r =? id e then e' else r) (rows s))
                     (persisted s) false)
    end.

(** [db.delete(obj)] and the flush that emits the DELETE. *)
Definition delete_flush (e : Employee) : M unit :=
  fun s =>
    if inactive s then (Raise PendingRollbackError, s) else
    (Return tt,
     mkSession (filter (fun r => negb (id r =? id e)) (rows s))
               (persisted s) false).

(** [db.commit()], after the pending changes were flushed. *)
Definition commit : M unit :=
  fun s =>
    if inactive s then (Raise PendingRollbackError, s)
    else (Return tt, mkSession (rows s) (rows s) false).

(** *** Integer parameters

    When a statement runs, the driver binds a Python [int] as a 64-bit
    INTEGER and raises [OverflowError] for one that does not fit.  The
    path parameter [employee_id] is any [int], and [skip] is only bounded
    below ([ge=0]), so both can be too large.

    A stored table has 64-bit rowids and fewer than [2^63] rows; the
    tables of this file are plain lists over [Z] and bound neither.  So
    that a list is read as the table it stands for, the id of a stored
    row and an offset up to the number of rows count as fitting. *)

Definition int64 (z : Z) : bool := (- 2 ^ 63 <=? z) && (z <? 2 ^ 63).

Definition id_fits (t : Table) (i : Z) : bool :=
  int64 i || existsb (fun e => id e =? i) t.

Definition offset_fits (t : Table) (n : Z) : bool :=
  int64 n || ((0 <=? n) && (n <=? Z.of_nat (List.length t))).

(** *** Query objects

    A [Query] is a SELECT under construction: the rows it selects from a
    table, and whether its integer parameters can be bound.  Nothing is
    read or bound until [all_], [first], [count] or a scalar aggregate
    runs it. *)
Record Query : Type := mkQuery {
  parameters_fit : Table -> bool;
  rows_of : Table -> Table
}.

Definition query_Employee : Query := mkQuery (fun _ => true) (fun t => t).

(** A condition without integer parameter. *)
Definition q_filter (p : Employee -> bool) (q : Query) : Query :=
  mkQuery (parameters_fit q) (fun t => filter p (rows_of q t)).

(** [filter(Employee.id == i)] *)
Definition q_filter_id (i : Z) (q : Query) : Query :=
  mkQuery (fun t => parameters_fit q t && id_fits t i)
          (fun t => filter (fun e => id e =? i) (rows_of q t)).

(** SQLite reads a negative OFFSET as 0 and a negative LIMIT as no limit. *)
Definition q_offset (n : Z) (q : Query) : Query :=
  mkQuery (fun t => parameters_fit q t && offset_fits t n)
          (fun t => skipn (Z.to_nat n) (rows_of q t)).

Definition q_limit (n : Z) (q : Query) : Query :=
  mkQuery (fun t => parameters_fit q t && int64 n)
          (fun t => if n <? 0 then rows_of q t
                    else firstn (Z.to_nat n) (rows_of q t)).

(** The statement of [q] is sent to the database. *)
Definition execute (q : Query) : M Table :=
  t <- select ;;
  if parameters_fit q t then ret (rows_of q t) else raise OverflowError.

Definition all_ (q : Query) : M (list Employee) := execute q.

Definition first (q : Query) : M (option Employee) :=
  t <- execute q ;; ret (hd_error t).

Definition count (q : Query) : M Z :=
  t <- execute q ;; ret (Z.of_nat (List.length t)).

(** [db.refresh(obj)]: the row is read back by its primary key, the
    rowid of a stored row. *)
Definition refresh (e : Employee) : M Employee :=
  r <- first (q_filter (fun r => id r =? id e) query_Employee) ;;
  match r with
  | Some r => ret r
  | None => raise (InvalidRequestError "Could not refresh instance")
  end.

(** *** The request cycle *)

Inductive Response (A : Type) : Type :=
| OK (body : A)
| Error (status_code : Z) (detail : string).
Arguments Error {A} status_code detail.

Definition respond {A} (o : Outcome A) : Response A :=
  match o with
  | Return a => OK a
  | Raise (HTTPException c d) => Error c d
  | Raise _ => Error 500 "Internal Server Error"
  end.

(** One request against the database [db]: the response and the database
    afterwards.  Closing the session discards what was not committed. *)
Definition run {A} (handler : M A) (db : Table) : Response A * Table :=
  let (o, s) := handler (mkSession db db false) in
  (respond o, persisted s).

Definition response {A} (handler : M A) (db : Table) : Response A :=
  fst (run handler db).

Definition db_after {A} (handler : M A) (db : Table) : Table :=
  snd (run handler db).

(** ** Handlers of [api/routes.py] *)

Record EmployeeListResponse : Type := mkList {
  total : Z;
  employees : list Employee
}.

Definition search_clause (search : option string) (q : Query) : Query :=
  match search with
  | Some s =>
      if String.eqb s "" then q
      else q_filter (fun e => contains (name e) s || contains (role e) s) q
  | None => q
  end.

Definition department_clause (department' : option string) (q : Query) : Query :=
  match department' with
  | Some d =>
      if String.eqb d "" then q
      else q_filter (fun e => sql_eq (department e) d) q
  | None => q
  end.

Definition get_employees (skip limit : Z) (search department' : option string)
  : M EmployeeListResponse :=
  let query := query_Employee in
  let query := search_clause search query in
  let query := department_clause department' query in
  total <- count query ;;
  employees <- all_ (q_limit limit (q_offset skip query)) ;;
  ret (mkList total employees).

Definition not_found : Exception := HTTPException 404 "Employee not found".
Definition duplicate_email : Exception :=
  HTTPException 400 "Email already registered".

Definition get_employee (employee_id : Z) : M Employee :=
  employee <- first (q_filter_id employee_id query_Employee) ;;
  match employee with
  | None => raise not_found
  | Some employee => ret employee
  end.

Definition create_employee (now : Z) (employee : EmployeeCreate) : M Employee :=
  (match c_email employee with
   | Some v =>
       if String.eqb v "" then ret tt else
       existing <- first (q_filter (fun e => sql_eq (email e) v) query_Employee) ;;
       match existing with
       | Some _ => raise duplicate_email
       | None => ret tt
       end
   | None => ret tt
   end) ;;
  db_employee <- add_flush now (model_dump employee) ;;
  commit ;;
  refresh db_employee.

(** The value read from an attribute of the update model: a field that
    was not sent reads as its default, [None]. *)
Definition attr {A} (u : option (option A)) : option A :=
  match u with
  | Some v => v
  | None => None
  end.

(** [employee_update.model_dump(exclude_unset=True).items()] *)
Inductive Item : Type :=
| Name (v : option string)
| Role (v : option string)
| Salary (v : option Q)
| Email (v : option string)
| Department (v : option string)
| PerformanceRating (v : option Q)
| Skills (v : option string).

Definition item {A} (field : option A -> Item) (u : option (option A)) : list Item :=
  match u with
  | Some v => [field v]
  | None => []
  end.

Definition model_dump_exclude_unset (u : EmployeeUpdate) : list Item :=
  item Name (u_name u) ++ item Role (u_role u) ++ item Salary (u_salary u)
  ++ item Email (u_email u) ++ item Department (u_department u)
  ++ item PerformanceRating (u_performance_rating u) ++ item Skills (u_skills u).

Definition setattr (a : Attrs) (i : Item) : Attrs :=
  match i with
  | Name v => mkAttrs v (a_role a) (a_salary a) (a_email a) (a_department a)
                (a_performance_rating a) (a_skills a)
  | Role v => mkAttrs (a_name a) v (a_salary a) (a_email a) (a_department a)
                (a_performance_rating a) (a_skills a)
  | Salary v => mkAttrs (a_name a) (a_role a) v (a_email a) (a_department a)
                  (a_performance_rating a) (a_skills a)
  | Email v => mkAttrs (a_name a) (a_role a) (a_salary a) v (a_department a)
                 (a_performance_rating a) (a_skills a)
  | Department v => mkAttrs (a_name a) (a_role a) (a_salary a) (a_email a) v
                      (a_performance_rating a) (a_skills a)
  | PerformanceRating v => mkAttrs (a_name a) (a_role a) (a_salary a) (a_email a)
                             (a_department a) v (a_skills a)
  | Skills v => mkAttrs (a_name a) (a_role a) (a_salary a) (a_email a)
                  (a_department a) (a_performance_rating a) v
  end.

Definition update_employee (now : Z) (employee_id : Z)
    (employee_update : EmployeeUpdate) : M Employee :=
  db_employee <- first (q_filter_id employee_id query_Employee) ;;
  match db_employee with
  | None => raise not_found
  | Some db_employee =>
      (match attr (u_email employee_update) with
       | Some v =>
           if negb (String.eqb v "") && negb (str_opt_eqb (Some v) (email db_employee))
           then
             existing <- first (q_filter (fun e => sql_eq (email e) v) query_Employee) ;;
             match existing with
             | Some _ => raise duplicate_email
             | None => ret tt
             end
           else ret tt
       | None => ret tt
       end) ;;
      let update_data := model_dump_exclude_unset employee_update in
      let obj := fold_left setattr update_data (of_row db_employee) in
      flush_update now db_employee obj ;;
      commit ;;
      refresh db_employee
  end.

Definition delete_employee (employee_id : Z) : M (string * Z) :=
  db_employee <- first (q_filter_id employee_id query_Employee) ;;
  match db_employee with
  | None => raise not_found
  | Some db_employee =>
      delete_flush db_employee ;;
      commit ;;
      ret ("Employee deleted successfully", employee_id)
  end.

(** *** Statistics *)

Record DepartmentCount : Type := mkDept {
  dept_name : string;
  dept_count : Z
}.

Record Stats : Type := mkStats {
  total_employees : Z;
  average_salary : Q;
  average_performance : Q;
  growth_rate : Q;
  recent_hires : Z;
  departments : list DepartmentCount
}.

(** [func.avg]: the mean of the non-NULL values, NULL when there is none. *)
Definition avg (vs : list (option Q)) : option Q :=
  match flat_map (fun v => match v with Some x => [x] | None => [] end) vs with
  | [] => None
  | x :: xs =>
      Some (fold_left Qplus xs x / inject_Z (Z.of_nat (S (List.length xs))))%Q
  end.

Definition scalar_avg (col : Employee -> option Q) (q : Query) : M (option Q) :=
  t <- execute q ;; ret (avg (map col t)).

(** [GROUP BY department] with [count(id)]: one result row per distinct
    value, NULL being a value of its own.  SQL leaves the order of the
    groups to the engine; here it is the order of first occurrence. *)
Fixpoint group_keys (ks : list (option string)) : list (option string) :=
  match ks with
  | [] => []
  | k :: ks' => k :: filter (fun k' => negb (str_opt_eqb k' k)) (group_keys ks')
  end.

Definition group_count (ks : list (option string)) : list (option string * Z) :=
  map (fun k => (k, Z.of_nat (List.length (filter (str_opt_eqb k) ks))))
      (group_keys ks).

Definition group_by_department (q : Query) : M (list (option string * Z)) :=
  t <- execute q ;; ret (group_count (map department t)).

(** Python [round(x, ndigits)] on the idealised value: to the nearest
    multiple of [10^-ndigits], ties to even. *)
Definition round_half_even (x : Q) : Z :=
  let f := Qfloor x in
  match ((x - inject_Z f) ?= 1 # 2)%Q with
  | Lt => f
  | Gt => f + 1
  | Eq => if Z.even f then f else f + 1
  end.

Definition round (x : Q) (ndigits : nat) : Q :=
  let scale := inject_Z (10 ^ Z.of_nat ndigits) in
  (inject_Z (round_half_even (x * scale)) / scale)%Q.

Definition thirty_days : Z := 30 * 86400.

(** [dept or "Unassigned"] *)
Definition or_Unassigned (dept : option string) : string :=
  match dept with
  | Some d => if String.eqb d "" then "Unassigned" else d
  | None => "Unassigned"
  end.

(** [datetime_now] is the reading of [datetime.now()] in the handler. *)
Definition get_employee_stats (datetime_now : Z) : M Stats :=
  total_employees <- count query_Employee ;;
  avg_salary <- scalar_avg (fun e => Some (salary e)) query_Employee ;;
  avg_performance <- scalar_avg performance_rating query_Employee ;;
  departments <- group_by_department query_Employee ;;
  let thirty_days_ago := datetime_now - thirty_days in
  recent_employees <-
    count (q_filter (fun e => thirty_days_ago <=? created_at e) query_Employee) ;;
  let growth_rate :=
    if 0 <? total_employees
    then round (inject_Z recent_employees / inject_Z total_employees * 100)%Q 1
    else 0%Q in
  ret (mkStats
         total_employees
         (match avg_salary with
          | Some x => if Qeq_bool x 0 then 0%Q else round x 2
          | None => 0%Q
          end)
         (match avg_performance with
          | Some x => if Qeq_bool x 0 then 0%Q else round x 1
          | None => 0%Q
          end)
         growth_rate
         recent_employees
         (map (fun '(dept, count) => mkDept (or_Unassigned dept) count) departments)).

(** *** Bulk import *)

Record BulkError : Type := mkBulkError {
  index : nat;
  error_email : option string;
  error : string
}.

Record BulkResult : Type := mkBulk {
  created : Z;
  employee_ids : list Z;
  errors : list BulkError
}.

(** [str(e)], reduced to the part that names the failure. *)
Definition str_exception (e : Exception) : string :=
  match e with
  | HTTPException _ d => d
  | IntegrityError c => c
  | InvalidRequestError m => m
  | OverflowError => "Python int too large to convert to SQLite INTEGER"
  | PendingRollbackError =>
      "This Session's transaction has been rolled back due to a previous exception during flush."
  end.

(** The body of the [for] loop for the entry [emp_data] at position [idx]:
    it returns the lists [created] and [errors] as the iteration leaves
    them. *)
Definition bulk_item (now : Z) (idx : nat) (emp_data : EmployeeCreate)
    (created : list Z) (errors : list BulkError) : M (list Z * list BulkError) :=
  let insert : M (list Z * list BulkError) :=
    db_employee <- add_flush now (model_dump emp_data) ;;
    ret (created ++ [id db_employee], errors) in
  try_except
    (match c_email emp_data with
     | Some v =>
         if String.eqb v "" then insert else
         existing <- first (q_filter (fun e => sql_eq (email e) v) query_Employee) ;;
         match existing with
         | Some _ =>
             ret (created,
                  errors ++ [mkBulkError idx (Some v) "Email already exists"])
         | None => insert
         end
     | None => insert
     end)
    (fun e => ret (created, errors ++ [mkBulkError idx None (str_exception e)])).

Fixpoint bulk_loop (now : Z) (idx : nat) (employees : list EmployeeCreate)
    (created : list Z) (errors : list BulkError) : M (list Z * list BulkError) :=
  match employees with
  | [] => ret (created, errors)
  | emp_data :: rest =>
      r <- bulk_item now idx emp_data created errors ;;
      bulk_loop now (S idx) rest (fst r) (snd r)
  end.

Definition bulk_create_employees (now : Z) (employees : list EmployeeCreate)
  : M BulkResult :=
  r <- bulk_loop now 0%nat employees [] [] ;;
  commit ;;
  ret (mkBulk (Z.of_nat (List.length (fst r))) (fst r) (snd r)).

(** *** CSV export *)

Definition comma : ascii := ascii_of_nat 44.
Definition dquote : ascii := ascii_of_nat 34.
Definition cr : ascii := ascii_of_nat 13.
Definition lf : ascii := ascii_of_nat 10.

(** [csv.writer] with the default dialect: a field is quoted when it
    holds the delimiter, the quote character or a character of the line
    terminator, and quote characters inside it are doubled. *)
Definition special (c : ascii) : bool :=
  Ascii.eqb c comma || Ascii.eqb c dquote || Ascii.eqb c cr || Ascii.eqb c lf.

Fixpoint needs_quotes (s : string) : bool :=
  match s with
  | EmptyString => false
  | String c s' => special c || needs_quotes s'
  end.

Fixpoint double_quotes (s : string) : string :=
  match s with
  | EmptyString => EmptyString
  | String c s' =>
      if Ascii.eqb c dquote then String dquote (String dquote (double_quotes s'))
      else String c (double_quotes s')
  end.

Definition csv_field (s : string) : string :=
  if needs_quotes s
  then String dquote (double_quotes s ++ String dquote EmptyString)%string
  else s.

Definition lineterminator : string := String cr (String lf EmptyString).

Definition csv_line (cells : list string) : string :=
  (String.concat (String comma EmptyString) (map csv_field cells)
   ++ lineterminator)%string.

(** [writer.writerow(cells)] on the buffer [output]. *)
Definition writerow (output : string) (cells : list string) : string :=
  (output ++ csv_line cells)%string.

Definition header : list string :=
  ["ID"; "Name"; "Email"; "Role"; "Department"; "Salary";
   "Performance Rating"; "Skills"; "Created At"].

(** [x or ''] *)
Definition or_empty (x : option string) : string :=
  match x with
  | Some s => s
  | None => ""
  end.

Definition str_int (z : Z) : string := NilZero.string_of_int (Z.to_int z).

Section Csv.

(** How the writer prints a [float] and a [datetime]: [repr] and [str]
    of the Python values, left to the runtime. *)
Variable str_float : Q -> string.
Variable str_datetime : Z -> string.

(** The cells of one record as the writer prints them; [None] prints
    as the empty string. *)
Definition cells (emp : Employee) : list string :=
  [str_int (id emp); name emp; or_empty (email emp); role emp;
   or_empty (department emp); str_float (salary emp);
   match performance_rating emp with
   | Some x => str_float x
   | None => ""
   end;
   or_empty (skills emp); str_datetime (created_at emp)].

Definition export_employees_csv : M string :=
  employees <- all_ query_Employee ;;
  let output := "" in
  let output := writerow output header in
  let output := fold_left (fun output emp => writerow output (cells emp))
                          employees output in
  ret output.

End Csv.

(** ** Vocabulary of the properties *)

(** The non-NULL values of the column [email], one per row holding one. *)
Definition stored_emails (t : Table) : list string :=
  flat_map (fun e => match email e with Some v => [v] | None => [] end) t.

(** No two rows share a non-NULL email. *)
Definition emails_unique (t : Table) : Prop := NoDup (stored_emails t).

(** PRIMARY KEY on [id]. *)
Definition primary_key (t : Table) : Prop := NoDup (map id t).

Definition uses_email (t : Table) (v : string) : Prop :=
  exists e, In e t /\ email e = Some v.

(** What [Optional[EmailStr]] admits: [None] or a well-formed address,
    which in particular is not the empty string. *)
Definition EmailStr (v : option string) : Prop := v <> Some "".

(** The row an INSERT of the payload [p] writes into the table [t]. *)
Definition new_row (now : Z) (p : EmployeeCreate) (t : Table) : Employee :=
  mkEmployee (next_id t) (c_name p) (c_role p) (c_salary p) (c_email p)
    (c_department p)
    (Some (match c_performance_rating p with Some x => x | None => 0%Q end))
    (c_skills p) now None.

(** The value an attribute holds after the [setattr] loop. *)
Definition assigned {A} (u : option (option A)) (stored : option A) : option A :=
  match u with
  | Some v => v
  | None => stored
  end.

Definition updated_attrs (u : EmployeeUpdate) (e : Employee) : Attrs :=
  mkAttrs (assigned (u_name u) (Some (name e)))
          (assigned (u_role u) (Some (role e)))
          (assigned (u_salary u) (Some (salary e)))
          (assigned (u_email u) (email e))
          (assigned (u_department u) (department e))
          (assigned (u_performance_rating u) (performance_rating e))
          (assigned (u_skills u) (skills e)).

(** The row an UPDATE of [e] to the attributes [a] writes, when no
    NOT NULL column is left empty. *)
Definition written_row (now : Z) (e : Employee) (a : Attrs) : option Employee :=
  match a_name a, a_role a, a_salary a with
  | Some n, Some r, Some sal =>
      Some (mkEmployee (id e) n r sal (a_email a) (a_department a)
              (a_performance_rating a) (a_skills a) (created_at e) (Some now))
  | _, _, _ => None
  end.

(** The table after the UPDATE keyed by [id e]. *)
Definition replace_row (e e' : Employee) (t : Table) : Table :=
  map (fun r => if id r =? id e then e' else r) t.

(** The email test of [update_employee]. *)
Definition update_collides (u : EmployeeUpdate) (e : Employee) (t : Table) : bool :=
  match attr (u_email u) with
  | Some v =>
      negb (String.eqb v "") && negb (str_opt_eqb (Some v) (email e))
      && existsb (fun r => sql_eq (email r) v) t
  | None => false
  end.

(** What [update_employee] does to the row [e] it found in [t]. *)
Definition update_outcome (now : Z) (u : EmployeeUpdate) (e : Employee) (t : Table)
  : Response Employee * Table :=
  if update_collides u e t then (Error 400 "Email already registered", t) else
  let a := updated_attrs u e in
  if negb (net_change (of_row e) a) then (OK e, t) else
  match written_row now e a with
  | None => (Error 500 "Internal Server Error", t)
  | Some e' =>
      if negb (str_opt_eqb (email e) (a_email a))
         && email_taken t (Some (id e)) (a_email a)
      then (Error 500 "Internal Server Error", t)
      else (OK e', replace_row e e' t)
  end.

(** Equality of two optional numbers as Python compares them. *)
Definition opt_Qeq (x y : option Q) : Prop :=
  match x, y with
  | Some a, Some b => (a == b)%Q
  | None, None => True
  | _, _ => False
  end.

(** The row [e'] keeps what the payload [u] does not mention of [e]. *)
Definition absent_kept (u : EmployeeUpdate) (e e' : Employee) : Prop :=
  id e' = id e /\ created_at e' = created_at e
  /\ (u_name u = None -> name e' = name e)
  /\ (u_role u = None -> role e' = role e)
  /\ (u_salary u = None -> salary e' = salary e)
  /\ (u_email u = None -> email e' = email e)
  /\ (u_department u = None -> department e' = department e)
  /\ (u_performance_rating u = None -> performance_rating e' = performance_rating e)
  /\ (u_skills u = None -> skills e' = skills e).

(** The row [e'] holds every value the payload [u] sends, [null], empty
    and zero included. *)
Definition sent_written (u : EmployeeUpdate) (e' : Employee) : Prop :=
  (forall v, u_name u = Some v -> v = Some (name e'))
  /\ (forall v, u_role u = Some v -> v = Some (role e'))
  /\ (forall v, u_salary u = Some v -> opt_Qeq v (Some (salary e')))
  /\ (forall v, u_email u = Some v -> v = email e')
  /\ (forall v, u_department u = Some v -> v = department e')
  /\ (forall v, u_performance_rating u = Some v -> opt_Qeq v (performance_rating e'))
  /\ (forall v, u_skills u = Some v -> v = skills e').

(** The payload [{salary: v}]. *)
Definition salary_only (v : option Q) : EmployeeUpdate :=
  mkUpdate None None (Some v) None None None None.

(** The records a listing request selects: both tests must pass. *)
Definition matches_search (search : option string) (e : Employee) : bool :=
  match search with
  | Some s =>
      if String.eqb s "" then true
      else contains (name e) s || contains (role e) s
  | None => true
  end.

Definition matches_department (department' : option string) (e : Employee) : bool :=
  match department' with
  | Some d => if String.eqb d "" then true else sql_eq (department e) d
  | None => true
  end.

Definition selected (search department' : option string) (t : Table) : Table :=
  filter (fun e => matches_search search e && matches_department department' e) t.

(** The number of rows whose [department] is exactly [k]. *)
Definition headcount (k : option string) (t : Table) : Z :=
  Z.of_nat (List.length (filter (fun e => str_opt_eqb k (department e)) t)).

(** The [departments] list of the statistics answer. *)
Definition department_breakdown (datetime_now : Z) (t : Table) : list DepartmentCount :=
  match response (get_employee_stats datetime_now) t with
  | OK s => departments s
  | Error _ _ => []
  end.

(** The text made of the given lines, one after the other. *)
Definition join_lines (ls : list string) : string :=
  fold_right String.append "" ls.

(** *** Reading CSV

    The reader of RFC 4180, written without reference to the writer:
    every record ends with CR LF, the fields of a record are separated by
    commas, and a field that starts with a double quote runs to its
    closing quote, a doubled quote inside it standing for one.  The
    answer is the list of the records, each the list of its fields;
    [None] for a text that is not of this form. *)
Inductive Reading : Type :=
  | FieldStart | Unquoted | Quoted | QuoteSeen | CrSeen.

Definition push_char (c : ascii) (r : option (list (list string)))
    : option (list (list string)) :=
  match r with
  | Some ((f :: fs) :: rs) => Some ((String c f :: fs) :: rs)
  | _ => None
  end.

Definition new_field (r : option (list (list string)))
    : option (list (list string)) :=
  match r with
  | Some (fs :: rs) => Some ((EmptyString :: fs) :: rs)
  | _ => None
  end.

Definition new_record (r : option (list (list string)))
    : option (list (list string)) :=
  match r with
  | Some rs => Some ([EmptyString] :: rs)
  | None => None
  end.

Fixpoint read (st : Reading) (s : string) {struct s}
    : option (list (list string)) :=
  match s with
  | EmptyString =>
      match st with
      | FieldStart => Some []
      | _ => None
      end
  | String c s' =>
      match st with
      | FieldStart =>
          if Ascii.eqb c (ascii_of_nat 34) then read Quoted s'
          else if Ascii.eqb c (ascii_of_nat 44) then new_field (read FieldStart s')
          else if Ascii.eqb c (ascii_of_nat 13) then read CrSeen s'
          else if Ascii.eqb c (ascii_of_nat 10) then None
          else push_char c (read Unquoted s')
      | Unquoted =>
          if Ascii.eqb c (ascii_of_nat 34) then None
          else if Ascii.eqb c (ascii_of_nat 44) then new_field (read FieldStart s')
          else if Ascii.eqb c (ascii_of_nat 13) then read CrSeen s'
          else if Ascii.eqb c (ascii_of_nat 10) then None
          else push_char c (read Unquoted s')
      | Quoted =>
          if Ascii.eqb c (ascii_of_nat 34) then read QuoteSeen s'
          else push_char c (read Quoted s')
      | QuoteSeen =>
          if Ascii.eqb c (ascii_of_nat 34) then push_char c (read Quoted s')
          else if Ascii.eqb c (ascii_of_nat 44) then new_field (read FieldStart s')
          else if Ascii.eqb c (ascii_of_nat 13) then read CrSeen s'
          else None
      | CrSeen =>
          if Ascii.eqb c (ascii_of_nat 10) then new_record (read FieldStart s')
          else None
      end
  end.

Definition read_csv (text : string) : option (list (list string)) :=
  read FieldStart text.

(** The text [k] starts with a comma or with CR: a field ends there. *)
Definition delimited (k : string) : Prop :=
  exists k', k = String (ascii_of_nat 44) k' \/ k = String (ascii_of_nat 13) k'.

(** A cell that the writer leaves as it is: it holds no comma, no double
    quote, no CR and no LF. *)
Definition plain (s : string) : Prop :=
  Forall (fun c => ~ In c [ascii_of_nat 44; ascii_of_nat 34;
                           ascii_of_nat 13; ascii_of_nat 10])
         (list_ascii_of_string s).

(** The payload [{email: v}]. *)
Definition email_only (v : option string) : EmployeeUpdate :=
  mkUpdate None None None (Some v) None None None.

(** ** Sample data *)

Definition carol : Employee :=
  mkEmployee 1 "Carol" "Engineer" 90000 (Some "carol@x.com") (Some "R&D")
    (Some 4%Q) None 100 None.

Definition dave : Employee :=
  mkEmployee 2 "Dave" "Analyst" 50000 (Some "dave@x.com") None
    (Some 3%Q) (Some "sql") 150 None.

Definition erin : Employee :=
  mkEmployee 3 "Erin" "Clerk" 30000 None (Some "") (Some 0%Q) None 160 None.

Definition frank : Employee :=
  mkEmployee 4 "Frank" "Clerk" 31000 None None (Some 0%Q) None 170 None.

Definition ann : EmployeeCreate :=
  mkCreate "A" "x" 1 (Some "a@x.com") None (Some 0%Q) None.

Definition ben : EmployeeCreate :=
  mkCreate "B" "y" 2 (Some "a@x.com") None (Some 0%Q) None.

(** What holds of the session between two statements of a request that
    started on the table [db], for a property [P] of tables: nothing was
    committed yet, and the rows the transaction sees satisfy [P] unless
    the transaction was rolled back. *)
Definition session_inv (P : Table -> Prop) (db : Table) (s : Session) : Prop :=
  persisted s = db /\ (inactive s = false -> P (rows s)).

(** [carol] after the update [{salary: 95000}] at time 200. *)
Definition carol_raised : Employee :=
  mkEmployee 1 "Carol" "Engineer" 95000 (Some "carol@x.com") (Some "R&D")
    (Some 4%Q) None 100 (Some 200).

(** The records a listing request answers with. *)
Definition page_of (skip limit : Z) (search department' : option string)
    (t : Table) : list Employee :=
  match response (get_employees skip limit search department') t with
  | OK r => employees r
  | Error _ _ => []
  end.

(** The [total] a listing request answers with. *)
Definition total_of (search department' : option string) (t : Table) : Z :=
  match response (get_employees 0 1 search department') t with
  | OK r => total r
  | Error _ _ => 0
  end.

(** The sum of the counts of a department breakdown. *)
Definition headcount_sum (ds : list DepartmentCount) : Z :=
  fold_right Z.add 0 (map dept_count ds).

(** Every entry of a batch carries an email that [Optional[EmailStr]]
    admits. *)
Definition batch_valid (ps : list EmployeeCreate) : Prop :=
  Forall (fun p => EmailStr (c_email p)) ps.

(** The table, the ids and the errors that the entries [ps], the first of
    them at position [idx], leave behind when each one is either inserted
    or turned down for its email. *)
Fixpoint bulk_outcome (now : Z) (idx : nat) (ps : list EmployeeCreate)
    (t : Table) (created : list Z) (errors : list BulkError)
  : Table * (list Z * list BulkError) :=
  match ps with
  | [] => (t, (created, errors))
  | p :: rest =>
      if email_taken t None (c_email p)
      then bulk_outcome now (S idx) rest t created
             (errors ++ [mkBulkError idx (c_email p) "Email already exists"])
      else bulk_outcome now (S idx) rest (t ++ [new_row now p t])
             (created ++ [next_id t]) errors
  end.

(** The tables a batch leaves when its entries are sent one by one to
    [create_employee]. *)
Definition create_each (now : Z) (ps : list EmployeeCreate) (t : Table) : Table :=
  fold_left (fun t p => db_after (create_employee now p) t) ps t.

(** The [errors] list a bulk import answers with. *)
Definition bulk_errors (now : Z) (ps : list EmployeeCreate) (t : Table)
  : list BulkError :=
  match response (bulk_create_employees now ps) t with
  | OK r => errors r
  | Error _ _ => []
  end.

(** The entry at position [k] of the batch was reported in [errs]. *)
Definition reported (k : nat) (errs : list BulkError) : Prop :=
  exists err, In err errs /\ index err = k.

(** ** The field constraints of [schemas/employee.py] *)

(** [Field(..., min_length=1, max_length=100)] *)
Definition length_1_100 (s : string) : Prop :=
  (1 <= String.length s <= 100)%nat.

(** [Field(None, max_length=100)] *)
Definition length_le_100 (o : option string) : Prop :=
  forall s, o = Some s -> (String.length s <= 100)%nat.

(** [Field(..., ge=0, le=5)] on an optional number *)
Definition rating_0_5 (o : option Q) : Prop :=
  forall x, o = Some x -> (0 <= x /\ x <= 5)%Q.

(** What the validation of [EmployeeCreate] lets through. *)
Definition valid_create (p : EmployeeCreate) : Prop :=
  length_1_100 (c_name p) /\ length_1_100 (c_role p) /\ (0 <= c_salary p)%Q
  /\ EmailStr (c_email p) /\ length_le_100 (c_department p)
  /\ rating_0_5 (c_performance_rating p).

(** What the validation of [EmployeeUpdate] lets through: a constraint
    binds the value of a field that is sent and not null. *)
Definition valid_update (u : EmployeeUpdate) : Prop :=
  (forall s, u_name u = Some (Some s) -> length_1_100 s)
  /\ (forall s, u_role u = Some (Some s) -> length_1_100 s)
  /\ (forall x, u_salary u = Some (Some x) -> (0 <= x)%Q)
  /\ EmailStr (attr (u_email u))
  /\ length_le_100 (attr (u_department u))
  /\ rating_0_5 (attr (u_performance_rating u)).

(** A stored record within the constraints of the schema. *)
Definition row_valid (e : Employee) : Prop :=
  length_1_100 (name e) /\ length_1_100 (role e) /\ (0 <= salary e)%Q
  /\ EmailStr (email e) /\ length_le_100 (department e)
  /\ rating_0_5 (performance_rating e).

(** The timestamps of a table read at the time [now] of the database
    clock: no record was created or updated in the future, and none was
    updated before its creation. *)
Definition timestamps_ordered (now : Z) (t : Table) : Prop :=
  forall e, In e t ->
    created_at e <= now
    /\ forall upd, updated_at e = Some upd -> created_at e <= upd <= now.

(** ** [db/init_db.py]

    The database as the inspector sees it: tables by name, each with the
    names of its columns and with rows of whatever shape the columns
    give them.  [Base.metadata] knows one table, [employees], declared
    in [db/models.py]. *)














(** The answer to a request for an id that no stored row has: 404 when
    the id can be bound, 500 when the driver raises. *)
Definition no_such_id {A} (i : Z) : Response A :=
  if int64 i then Error 404 "Employee not found"
  else Error 500 "Internal Server Error".

(** * Properties *)

Unset Implicit Arguments.

(** ** The store at work *)

Example contains_ignores_case : contains "Senior Engineer" "engineer" = true.
Proof. reflexivity. Qed.

Example contains_wildcards :
  contains "Clerk" "C_e" = true /\ contains "Clerk" "C%k" = true
  /\ contains "Clerk" "Ce" = false.
Proof. repeat split. Qed.

Example next_id_example : next_id [carol; dave] = 3 /\ next_id [] = 1.
Proof. split; reflexivity. Qed.

Example round_example : (round (2 # 3) 2 == 67 # 100)%Q /\ (round (1 # 8) 2 == 12 # 100)%Q.
Proof. split; reflexivity. Qed.

(** ** Lists and lookups *)

Lemma hd_error_filter {A} (p : A -> bool) (l : list A) :
  hd_error (filter p l) = find p l.
Proof.
  induction l as [|x l IH]; simpl; [reflexivity|].
  destruct (p x); [reflexivity | exact IH].
Qed.

Lemma in_stored_emails (t : Table) (v : string) :
  In v (stored_emails t) <-> uses_email t v.
Proof.
  unfold stored_emails, uses_email. rewrite in_flat_map. split.
  - intros [e [He Hv]]. exists e. split; [exact He|].
    destruct (email e) as [w|]; simpl in Hv; [|contradiction].
    destruct Hv as [->|[]]. reflexivity.
  - intros [e [He Hv]]. exists e. split; [exact He|].
    rewrite Hv. left. reflexivity.
Qed.

Lemma sql_eq_true (col : option string) (v : string) :
  sql_eq col v = true <-> col = Some v.
Proof.
  destruct col as [s|]; simpl.
  - rewrite String.eqb_eq. split; congruence.
  - split; discriminate.
Qed.

Lemma find_email_some (t : Table) (v : string) :
  (exists e, find (fun e => sql_eq (email e) v) t = Some e) <-> uses_email t v.
Proof.
  split.
  - intros [e He]. apply find_some in He. destruct He as [Hin Hv].
    exists e. split; [exact Hin | now apply sql_eq_true].
  - intros [e [Hin Hv]].
    destruct (find (fun e => sql_eq (email e) v) t) as [r|] eqn:Hf.
    + now exists r.
    + apply (find_none _ _ Hf) in Hin. apply sql_eq_true in Hv. congruence.
Qed.

Lemma email_taken_insert (t : Table) (v : string) :
  email_taken t None (Some v) = true <-> uses_email t v.
Proof.
  simpl. rewrite existsb_exists. split.
  - intros [e [Hin H]]. rewrite andb_true_r in H.
    exists e. split; [exact Hin | now apply sql_eq_true].
  - intros [e [Hin H]]. exists e. split; [exact Hin|].
    rewrite andb_true_r. now apply sql_eq_true.
Qed.

Lemma fold_max_le (l : list Z) (a : Z) : a <= fold_left Z.max l a.
Proof.
  revert a. induction l as [|x l IH]; intros a; simpl; [lia|].
  specialize (IH (Z.max a x)). lia.
Qed.

Lemma fold_max_in (l : list Z) (a x : Z) : In x l -> x <= fold_left Z.max l a.
Proof.
  revert a. induction l as [|y l IH]; intros a; simpl; [contradiction|].
  intros [->|H].
  - pose proof (fold_max_le l (Z.max a x)). lia.
  - now apply IH.
Qed.

Lemma next_id_fresh (t : Table) (e : Employee) : In e t -> id e < next_id t.
Proof.
  destruct t as [|r t]; simpl; [contradiction|].
  intros [->|H].
  - pose proof (fold_max_le (map id t) (id e)). lia.
  - pose proof (fold_max_in (map id t) (id r) (id e) (in_map id _ _ H)). lia.
Qed.

Lemma next_id_not_in (t : Table) : ~ In (next_id t) (map id t).
Proof.
  intros H. apply in_map_iff in H. destruct H as [e [He Hin]].
  apply next_id_fresh in Hin. lia.
Qed.

Lemma find_fresh_row (t : Table) (e : Employee) :
  id e = next_id t ->
  find (fun r => id r =? next_id t) (t ++ [e]) = Some e.
Proof.
  intros He. rewrite <- He.
  assert (H : forall l, (forall r, In r l -> id r < id e) ->
              find (fun r => id r =? id e) (l ++ [e]) = Some e).
  { induction l as [|r l IH]; intros Hl; simpl.
    - now rewrite Z.eqb_refl.
    - destruct (Z.eqb_spec (id r) (id e)) as [E|_].
      + specialize (Hl r (or_introl eq_refl)). lia.
      + apply IH. intros r' Hr'. apply Hl. now right. }
  apply H. intros r Hr. rewrite He. now apply next_id_fresh.
Qed.

Lemma find_by_id (t : Table) (e : Employee) :
  primary_key t -> In e t -> find (fun r => id r =? id e) t = Some e.
Proof.
  unfold primary_key. induction t as [|r t IH]; simpl; [contradiction|].
  intros Hpk Hin. apply NoDup_cons_iff in Hpk. destruct Hpk as [Hr Hpk].
  destruct Hin as [->|Hin].
  - now rewrite Z.eqb_refl.
  - destruct (Z.eqb_spec (id r) (id e)) as [E|_].
    + exfalso. apply Hr. rewrite E. now apply in_map.
    + now apply IH.
Qed.

(** ** What one request does *)

(** Unfolding of the session monad and of the statements. *)
Ltac session :=
  cbv beta iota zeta delta
    [bind ret raise try_except select execute first all_ count commit refresh
     scalar_avg group_by_department q_filter q_filter_id q_offset q_limit
     query_Employee parameters_fit rows_of flush_error].

(** [create_employee], flattened. *)
Lemma create_employee_run (now : Z) (p : EmployeeCreate) (db : Table) :
  run (create_employee now p) db =
    match c_email p with
    | Some v =>
        if String.eqb v "" then
          if email_taken db None (Some v)
          then (Error 500 "Internal Server Error", db)
          else (OK (new_row now p db), db ++ [new_row now p db])
        else if email_taken db None (Some v)
          then (Error 400 "Email already registered", db)
          else (OK (new_row now p db), db ++ [new_row now p db])
    | None => (OK (new_row now p db), db ++ [new_row now p db])
    end.
Proof.
  assert (Hins : email_taken db None (c_email p) = false ->
            (let (o, s) := (db_employee <- add_flush now (model_dump p) ;;
                            commit ;; refresh db_employee) (mkSession db db false) in
             (respond o, persisted s))
            = (OK (new_row now p db), db ++ [new_row now p db])).
  { intros Ht. session. unfold add_flush. cbn. rewrite Ht. cbn.
    rewrite hd_error_filter.
    change (mkEmployee (next_id db) (c_name p) (c_role p) (c_salary p)
              (c_email p) (c_department p)
              (Some match c_performance_rating p with
                    | Some x => x | None => 0%Q end)
              (c_skills p) now None) with (new_row now p db).
    rewrite (find_fresh_row db (new_row now p db) eq_refl). reflexivity. }
  unfold run, create_employee.
  destruct (c_email p) as [v|] eqn:Hv.
  - destruct (String.eqb v "") eqn:Hempty.
    + destruct (email_taken db None (Some v)) eqn:Ht.
      * session. unfold add_flush. cbn. rewrite Hv, Ht. reflexivity.
      * apply Hins. reflexivity.
    + destruct (email_taken db None (Some v)) eqn:Ht.
      * apply email_taken_insert, find_email_some in Ht. destruct Ht as [e He].
        session. cbn. rewrite hd_error_filter, He. reflexivity.
      * destruct (find (fun e => sql_eq (email e) v) db) as [e|] eqn:Hf.
        -- assert (email_taken db None (Some v) = true) as Ht'.
           { apply email_taken_insert, find_email_some. now exists e. }
           congruence.
        -- specialize (Hins eq_refl). revert Hins. session. cbn.
           rewrite hd_error_filter, Hf. cbn. intros Hins. exact Hins.
  - apply Hins. reflexivity.
Qed.

Lemma uses_email_app (t : Table) (e : Employee) (v : string) :
  uses_email (t ++ [e]) v <-> uses_email t v \/ email e = Some v.
Proof.
  unfold uses_email. split.
  - intros [r [Hin Hv]]. apply in_app_iff in Hin. destruct Hin as [Hin|[<-|[]]].
    + left. now exists r.
    + now right.
  - intros [[r [Hin Hv]]|Hv].
    + exists r. split; [apply in_app_iff; now left | exact Hv].
    + exists e. split; [apply in_app_iff; right; now left | exact Hv].
Qed.

(** ** Creation *)

(** C4.  For a payload whose email is [None] or a well-formed address,
    [create_employee] answers 400 "Email already registered" exactly when
    the email is present and held by a stored record, and then the table
    is left as it was.  In every other case the request succeeds: the new
    row is appended, its [id] is held by no stored record and its
    [created_at] is the time of the insert.  A second creation with the
    same non-null email is answered 400 whatever the first one did. *)
Theorem create_employee_duplicate_email (now : Z) (p : EmployeeCreate) (db : Table) :
  EmailStr (c_email p) ->
  (response (create_employee now p) db = Error 400 "Email already registered"
   <-> exists v, c_email p = Some v /\ uses_email db v)
  /\ (response (create_employee now p) db = Error 400 "Email already registered"
      -> db_after (create_employee now p) db = db)
  /\ (response (create_employee now p) db <> Error 400 "Email already registered"
      -> exists e,
           run (create_employee now p) db = (OK e, db ++ [e])
           /\ e = new_row now p db
           /\ ~ In (id e) (map id db)
           /\ created_at e = now)
  /\ (forall now' p',
        c_email p <> None -> c_email p' = c_email p ->
        response (create_employee now' p') (db_after (create_employee now p) db)
        = Error 400 "Email already registered").
Proof.
  intros Hwf. unfold response, db_after.
  assert (Hcases :
    (exists v, c_email p = Some v /\ uses_email db v
       /\ run (create_employee now p) db
          = (Error 400 "Email already registered", db))
    \/ ((forall v, c_email p = Some v -> ~ uses_email db v)
        /\ run (create_employee now p) db
           = (OK (new_row now p db), db ++ [new_row now p db]))).
  { rewrite create_employee_run. destruct (c_email p) as [v|] eqn:Hv.
    - destruct (String.eqb_spec v "") as [->|Hne]; [now elim Hwf|].
      destruct (email_taken db None (Some v)) eqn:Ht.
      + left. exists v. repeat split. now apply email_taken_insert.
      + right. split; [|reflexivity]. intros w [= <-] Hu.
        apply email_taken_insert in Hu. congruence.
    - right. split; [discriminate | reflexivity]. }
  split; [|split; [|split]].
  - destruct Hcases as [[v [Hv [Hu ->]]]|[Hfree ->]]; simpl.
    + split; [intros _; now exists v | reflexivity].
    + split; [discriminate|]. intros [v [Hv Hu]]. now elim (Hfree v Hv).
  - destruct Hcases as [[v [Hv [Hu ->]]]|[Hfree ->]]; simpl;
      [reflexivity | discriminate].
  - destruct Hcases as [[v [Hv [Hu ->]]]|[Hfree ->]]; simpl.
    + intros H. now elim H.
    + intros _. exists (new_row now p db). repeat split.
      apply next_id_not_in.
  - intros now' p' Hsome Heq.
    destruct (c_email p) as [v|] eqn:Hv; [clear Hsome | now elim Hsome].
    assert (Hne : v <> "") by (intros ->; now elim Hwf).
    assert (Hused : uses_email (snd (run (create_employee now p) db)) v).
    { destruct Hcases as [[w [Hw [Hu ->]]]|[Hfree ->]]; simpl.
      - now injection Hw as ->.
      - apply uses_email_app. right. unfold new_row; simpl. exact Hv. }
    rewrite create_employee_run, Heq.
    destruct (String.eqb_spec v "") as [E|_]; [contradiction|].
    apply email_taken_insert in Hused. rewrite Hused. reflexivity.
Qed.

Lemma create_employee_duplicate_email_witness :
  EmailStr (c_email ann)
  /\ response (create_employee 200 ben) (db_after (create_employee 100 ann) [])
     = Error 400 "Email already registered".
Proof.
  assert (Hwf : EmailStr (c_email ann)) by discriminate.
  split; [exact Hwf|].
  apply (create_employee_duplicate_email 100 ann [] Hwf);
    [discriminate | reflexivity].
Defined.

(** ** Update *)

Lemma setattr_loop (u : EmployeeUpdate) (e : Employee) :
  fold_left setattr (model_dump_exclude_unset u) (of_row e) = updated_attrs u e.
Proof.
  destruct u as [n r s m d p k].
  destruct n, r, s, m, d, p, k; reflexivity.
Qed.

Lemma existsb_find {A} (p : A -> bool) (l : list A) :
  existsb p l = match find p l with Some _ => true | None => false end.
Proof.
  induction l as [|x l IH]; simpl; [reflexivity|].
  destruct (p x); [reflexivity | exact IH].
Qed.

Lemma find_replace_row (e e' : Employee) (t : Table) :
  id e' = id e -> In e t ->
  find (fun r => id r =? id e) (replace_row e e' t) = Some e'.
Proof.
  intros He'. unfold replace_row.
  induction t as [|r t IH]; simpl; [contradiction|].
  intros Hin. destruct (Z.eqb_spec (id r) (id e)) as [E|N].
  - rewrite He', Z.eqb_refl. reflexivity.
  - destruct (Z.eqb_spec (id r) (id e)) as [E|_]; [contradiction|].
    apply IH. destruct Hin as [->|Hin]; [now elim N | exact Hin].
Qed.

Lemma written_row_id (now : Z) (e e' : Employee) (a : Attrs) :
  written_row now e a = Some e' -> id e' = id e /\ created_at e' = created_at e.
Proof.
  unfold written_row.
  destruct (a_name a), (a_role a), (a_salary a); try discriminate.
  intros [= <-]. split; reflexivity.
Qed.

Lemma written_row_email (now : Z) (e e' : Employee) (a : Attrs) :
  written_row now e a = Some e' -> email e' = a_email a.
Proof.
  unfold written_row.
  destruct (a_name a), (a_role a), (a_salary a); try discriminate.
  now intros [= <-].
Qed.

(** The write of [update_employee], once the email test has passed. *)
Lemma update_write_run (now : Z) (u : EmployeeUpdate) (e : Employee) (db : Table) :
  find (fun r => id r =? id e) db = Some e ->
  (let (o, s) := (flush_update now e (updated_attrs u e) ;; commit ;; refresh e)
                   (mkSession db db false) in
   (respond o, persisted s))
  = (let a := updated_attrs u e in
     if negb (net_change (of_row e) a) then (OK e, db) else
     match written_row now e a with
     | None => (Error 500 "Internal Server Error", db)
     | Some e' =>
         if negb (str_opt_eqb (email e) (a_email a))
            && email_taken db (Some (id e)) (a_email a)
         then (Error 500 "Internal Server Error", db)
         else (OK e', replace_row e e' db)
     end).
Proof.
  intros Hfind. pose proof (find_some _ _ Hfind) as [Hin _].
  session. unfold flush_update, written_row. cbn -[net_change updated_attrs].
  destruct (net_change (of_row e) (updated_attrs u e)); cbn -[updated_attrs].
  - destruct (a_name (updated_attrs u e)) as [n|]; [|reflexivity].
    destruct (a_role (updated_attrs u e)) as [r|]; [|reflexivity].
    destruct (a_salary (updated_attrs u e)) as [sal|]; [|reflexivity].
    destruct (negb (str_opt_eqb (email e) (a_email (updated_attrs u e)))
              && email_taken db (Some (id e)) (a_email (updated_attrs u e)));
      [reflexivity|].
    cbn -[updated_attrs]. rewrite hd_error_filter.
    fold (replace_row e
            (mkEmployee (id e) n r sal (a_email (updated_attrs u e))
               (a_department (updated_attrs u e))
               (a_performance_rating (updated_attrs u e))
               (a_skills (updated_attrs u e)) (created_at e) (Some now)) db).
    rewrite find_replace_row; [reflexivity | reflexivity | exact Hin].
  - rewrite hd_error_filter, Hfind. reflexivity.
Qed.

Lemma id_fits_found (i : Z) (t : Table) (e : Employee) :
  find (fun r => id r =? i) t = Some e -> id_fits t i = true.
Proof.
  intros Hf. unfold id_fits. rewrite existsb_find, Hf. apply orb_true_r.
Qed.

Lemma id_fits_not_found (i : Z) (t : Table) :
  find (fun r => id r =? i) t = None -> id_fits t i = int64 i.
Proof.
  intros Hf. unfold id_fits. rewrite existsb_find, Hf. apply orb_false_r.
Qed.

(** [update_employee], flattened. *)
Lemma update_employee_run (now i : Z) (u : EmployeeUpdate) (db : Table) :
  run (update_employee now i u) db =
    match find (fun r => id r =? i) db with
    | None => (no_such_id i, db)
    | Some e => update_outcome now u e db
    end.
Proof.
  unfold run, update_employee.
  destruct (find (fun r => id r =? i) db) as [e|] eqn:Hfind.
  - pose proof (id_fits_found i db e Hfind) as Hfits.
    pose proof (find_some _ _ Hfind) as [Hin Hid]. apply Z.eqb_eq in Hid.
    subst i. pose proof (update_write_run now u e db Hfind) as Htail.
    rewrite <- (setattr_loop u e) in Htail at 1.
    unfold update_outcome, update_collides.
    destruct (attr (u_email u)) as [v|].
    + destruct (negb (String.eqb v "") && negb (str_opt_eqb (Some v) (email e)))
        eqn:Htest.
      * rewrite existsb_find. cbn [andb].
        destruct (find (fun r => sql_eq (email r) v) db) as [r|] eqn:Hdup.
        -- session.
           repeat first [ rewrite hd_error_filter | rewrite Hfits | rewrite Hfind
                        | rewrite Htest | rewrite Hdup
                        | progress cbn -[str_opt_eqb id_fits] ].
           reflexivity.
        -- revert Htail. session.
           repeat first [ rewrite hd_error_filter | rewrite Hfits | rewrite Hfind
                        | rewrite Htest | rewrite Hdup
                        | progress cbn -[str_opt_eqb id_fits] ].
           intros Htail. exact Htail.
      * cbn [andb]. revert Htail. session.
        repeat first [ rewrite hd_error_filter | rewrite Hfits | rewrite Hfind
                     | rewrite Htest | progress cbn -[str_opt_eqb id_fits] ].
        intros Htail. exact Htail.
    + revert Htail. session.
      repeat first [ rewrite hd_error_filter | rewrite Hfits | rewrite Hfind
                   | progress cbn -[str_opt_eqb id_fits] ].
      intros Htail. exact Htail.
  - pose proof (id_fits_not_found i db Hfind) as Hfits.
    session. cbn -[id_fits]. rewrite Hfits. unfold no_such_id.
    destruct (int64 i); cbn; [|reflexivity].
    rewrite hd_error_filter, Hfind. reflexivity.
Qed.

Lemma attr_some {A} (u : option (option A)) (v : A) :
  attr u = Some v <-> u = Some (Some v).
Proof.
  destruct u as [[w|]|]; simpl; split; congruence.
Qed.

Lemma str_opt_eqb_true (x y : option string) :
  str_opt_eqb x y = true <-> x = y.
Proof.
  destruct x as [a|], y as [b|]; simpl; try (split; congruence).
  rewrite String.eqb_eq. split; congruence.
Qed.

Lemma update_collides_spec (u : EmployeeUpdate) (e : Employee) (t : Table) :
  update_collides u e t = true <->
  exists v, u_email u = Some (Some v) /\ v <> "" /\ email e <> Some v
            /\ uses_email t v.
Proof.
  unfold update_collides. split.
  - destruct (attr (u_email u)) as [v|] eqn:Hv; [|discriminate].
    intros H. apply andb_prop in H. destruct H as [H Hex].
    apply andb_prop in H. destruct H as [Hne Hdiff].
    exists v. split; [now apply attr_some|]. split; [|split].
    + intros ->. discriminate.
    + intros E. rewrite E in Hdiff. simpl in Hdiff.
      rewrite String.eqb_refl in Hdiff. discriminate.
    + apply find_email_some. rewrite existsb_find in Hex.
      destruct (find (fun r => sql_eq (email r) v) t) as [r|]; [now exists r|].
      discriminate.
  - intros [v [Hv [Hne [Hdiff Hu]]]]. apply attr_some in Hv. rewrite Hv.
    apply find_email_some in Hu. destruct Hu as [r Hr].
    rewrite existsb_find, Hr.
    apply String.eqb_neq in Hne. rewrite Hne.
    destruct (str_opt_eqb (Some v) (email e)) eqn:E; [|reflexivity].
    apply str_opt_eqb_true in E. now elim Hdiff.
Qed.

Lemma update_outcome_not_400 (now : Z) (u : EmployeeUpdate) (e : Employee)
    (t : Table) (d : string) :
  update_collides u e t = false ->
  fst (update_outcome now u e t) <> Error 400 d.
Proof.
  intros H. unfold update_outcome. rewrite H. cbv zeta.
  destruct (negb (net_change (of_row e) (updated_attrs u e))); [discriminate|].
  destruct (written_row now e (updated_attrs u e)); [|discriminate].
  destruct (negb _ && _); discriminate.
Qed.

(** C5.  For a stored record [e] and an update payload whose email, when
    sent, is [null] or a well-formed address, [update_employee] answers
    400 "Email already registered" exactly when the payload carries an
    email that differs from the one stored in [e] and is the email of
    another stored record.  Sending the record's own email again, or an
    email that no other record holds, is never answered 400. *)
Theorem update_employee_duplicate_email (now : Z) (u : EmployeeUpdate)
    (e : Employee) (db : Table) :
  primary_key db -> In e db -> EmailStr (attr (u_email u)) ->
  (response (update_employee now (id e) u) db
     = Error 400 "Email already registered"
   <-> exists v r, u_email u = Some (Some v) /\ email e <> Some v
                   /\ In r db /\ r <> e /\ email r = Some v)
  /\ (u_email u = Some (email e) ->
      response (update_employee now (id e) u) db
        <> Error 400 "Email already registered")
  /\ (forall v, u_email u = Some (Some v) ->
        (forall r, In r db -> r <> e -> email r <> Some v) ->
        response (update_employee now (id e) u) db
          <> Error 400 "Email already registered").
Proof.
  intros Hpk Hin Hwf. unfold response.
  rewrite update_employee_run, (find_by_id db e Hpk Hin).
  assert (Hiff : update_collides u e db = true <->
            exists v r, u_email u = Some (Some v) /\ email e <> Some v
                        /\ In r db /\ r <> e /\ email r = Some v).
  { rewrite update_collides_spec. split.
    - intros [v [Hv [_ [Hdiff [r [Hr Hrv]]]]]]. exists v, r.
      repeat split; try assumption. intros ->. contradiction.
    - intros [v [r [Hv [Hdiff [Hr [_ Hrv]]]]]]. exists v.
      repeat split; try assumption.
      + intros ->. apply Hwf. now apply attr_some.
      + now exists r. }
  assert (Hresp : fst (update_outcome now u e db)
                    = Error 400 "Email already registered"
                  <-> update_collides u e db = true).
  { destruct (update_collides u e db) eqn:Hc.
    - unfold update_outcome. rewrite Hc. simpl. tauto.
    - pose proof (update_outcome_not_400 now u e db
                    "Email already registered" Hc). split; [tauto|discriminate]. }
  split; [|split].
  - now rewrite Hresp, Hiff.
  - intros Hown. rewrite Hresp, Hiff.
    intros [v [r [Hv [Hdiff _]]]]. rewrite Hv in Hown. congruence.
  - intros v Hv Hfree. rewrite Hresp, Hiff.
    intros [w [r [Hw [_ [Hr [Hne Hrw]]]]]].
    rewrite Hv in Hw. injection Hw as <-. now apply (Hfree r Hr Hne).
Qed.

Lemma primary_key_carol_dave : primary_key [carol; dave].
Proof.
  unfold primary_key. cbn.
  constructor; [intros [H|[]]; discriminate|].
  constructor; [intros []|constructor].
Defined.

Lemma update_employee_duplicate_email_witness :
  primary_key [carol; dave] /\ In carol [carol; dave]
  /\ EmailStr (attr (u_email (email_only (Some "dave@x.com"))))
  /\ response (update_employee 200 (id carol) (email_only (Some "dave@x.com")))
       [carol; dave]
     = Error 400 "Email already registered".
Proof.
  assert (Hin : In carol [carol; dave]) by (left; reflexivity).
  assert (Hwf : EmailStr (attr (u_email (email_only (Some "dave@x.com")))))
    by discriminate.
  refine (conj primary_key_carol_dave (conj Hin (conj Hwf _))).
  apply (update_employee_duplicate_email 200 (email_only (Some "dave@x.com"))
           carol [carol; dave] primary_key_carol_dave Hin Hwf).
  exists "dave@x.com", dave.
  repeat split; try discriminate. right; left; reflexivity.
Defined.

Lemma q_opt_eqb_true (x y : option Q) : q_opt_eqb x y = true <-> opt_Qeq x y.
Proof.
  destruct x as [a|], y as [b|]; simpl; try (split; [discriminate|contradiction]).
  - apply Qeq_bool_iff.
  - split; trivial.
Qed.

Lemma opt_Qeq_sym (x y : option Q) : opt_Qeq x y -> opt_Qeq y x.
Proof.
  destruct x, y; simpl; trivial. apply Qeq_sym.
Qed.

(** The three ways an update of the row [e] can end. *)
Lemma update_outcome_cases (now : Z) (u : EmployeeUpdate) (e : Employee) (t : Table) :
  (exists c d, update_outcome now u e t = (Error c d, t))
  \/ (net_change (of_row e) (updated_attrs u e) = false
      /\ update_outcome now u e t = (OK e, t))
  \/ (exists e', net_change (of_row e) (updated_attrs u e) = true
                 /\ written_row now e (updated_attrs u e) = Some e'
                 /\ update_outcome now u e t = (OK e', replace_row e e' t)).
Proof.
  unfold update_outcome.
  destruct (update_collides u e t); [left; eauto|]. cbv zeta.
  destruct (net_change (of_row e) (updated_attrs u e)); simpl;
    [|right; left; split; reflexivity].
  destruct (written_row now e (updated_attrs u e)) as [e'|]; [|left; eauto].
  destruct (negb _ && _); [left; eauto|].
  right; right. exists e'. repeat split.
Qed.

Lemma absent_kept_refl (u : EmployeeUpdate) (e : Employee) : absent_kept u e e.
Proof. unfold absent_kept. repeat split; reflexivity. Qed.

Lemma written_row_absent_kept (now : Z) (u : EmployeeUpdate) (e e' : Employee) :
  written_row now e (updated_attrs u e) = Some e' -> absent_kept u e e'.
Proof.
  unfold written_row, updated_attrs, absent_kept. simpl.
  destruct (assigned (u_name u) (Some (name e))) as [n|] eqn:Hn; [|discriminate].
  destruct (assigned (u_role u) (Some (role e))) as [r|] eqn:Hr; [|discriminate].
  destruct (assigned (u_salary u) (Some (salary e))) as [s|] eqn:Hs; [|discriminate].
  intros [= <-]. simpl.
  repeat split; intros H; rewrite H in *; simpl in *; congruence.
Qed.

Lemma written_row_sent_written (now : Z) (u : EmployeeUpdate) (e e' : Employee) :
  written_row now e (updated_attrs u e) = Some e' -> sent_written u e'.
Proof.
  unfold written_row, updated_attrs, sent_written. simpl.
  destruct (assigned (u_name u) (Some (name e))) as [n|] eqn:Hn; [|discriminate].
  destruct (assigned (u_role u) (Some (role e))) as [r|] eqn:Hr; [|discriminate].
  destruct (assigned (u_salary u) (Some (salary e))) as [s|] eqn:Hs; [|discriminate].
  intros [= <-]. simpl.
  repeat split; intros v H; rewrite H in *; simpl in *; subst;
    try reflexivity; try (destruct v; simpl; [apply Qeq_refl | trivial]).
Qed.

Lemma unchanged_sent_written (u : EmployeeUpdate) (e : Employee) :
  net_change (of_row e) (updated_attrs u e) = false -> sent_written u e.
Proof.
  unfold net_change, updated_attrs, of_row.
  cbn [a_name a_role a_salary a_email a_department a_performance_rating a_skills].
  intros H. apply negb_false_iff in H.
  repeat (apply andb_prop in H; destruct H as [H ?]).
  repeat match goal with
         | H : str_opt_eqb _ _ = true |- _ => apply str_opt_eqb_true in H
         | H : q_opt_eqb _ _ = true |- _ => apply q_opt_eqb_true in H
         end.
  unfold sent_written.
  repeat split; intros v Hv; rewrite Hv in *; cbn [assigned] in *;
    try congruence; now apply opt_Qeq_sym.
Qed.

Lemma str_opt_eqb_refl (x : option string) : str_opt_eqb x x = true.
Proof. now apply str_opt_eqb_true. Qed.

Lemma q_opt_eqb_refl (x : option Q) : q_opt_eqb x x = true.
Proof.
  apply q_opt_eqb_true. destruct x; simpl; [apply Qeq_refl | trivial].
Qed.

(** The update [{salary: v}] with a number [v]. *)
Lemma salary_only_outcome (now : Z) (v : Q) (e : Employee) (t : Table) :
  update_outcome now (salary_only (Some v)) e t
  = if Qeq_bool (salary e) v then (OK e, t)
    else let e' := mkEmployee (id e) (name e) (role e) v (email e)
                     (department e) (performance_rating e) (skills e)
                     (created_at e) (Some now) in
         (OK e', replace_row e e' t).
Proof.
  unfold update_outcome, update_collides, net_change, written_row,
    updated_attrs, of_row, salary_only.
  cbn [attr assigned u_name u_role u_salary u_email u_department
       u_performance_rating u_skills a_name a_role a_salary a_email
       a_department a_performance_rating a_skills].
  rewrite !str_opt_eqb_refl, q_opt_eqb_refl.
  cbn [q_opt_eqb opt_eqb andb negb].
  rewrite !andb_true_r.
  destruct (Qeq_bool (salary e) v); reflexivity.
Qed.

(** The stored record after any update request on it. *)
Lemma update_employee_frame (now : Z) (u : EmployeeUpdate) (e : Employee)
    (db : Table) :
  primary_key db -> In e db ->
  exists e',
    find (fun r => id r =? id e) (db_after (update_employee now (id e) u) db)
      = Some e'
    /\ absent_kept u e e'
    /\ (forall r, response (update_employee now (id e) u) db = OK r ->
                  r = e' /\ sent_written u e').
Proof.
  intros Hpk Hin. unfold db_after, response.
  rewrite update_employee_run, (find_by_id db e Hpk Hin).
  destruct (update_outcome_cases now u e db)
    as [[c [d ->]]|[[Hsame ->]|[e' [Hch [Hw ->]]]]]; cbn [fst snd].
  - exists e. split; [now apply find_by_id|]. split; [apply absent_kept_refl|].
    discriminate.
  - exists e. split; [now apply find_by_id|]. split; [apply absent_kept_refl|].
    intros r [= <-]. split; [reflexivity | now apply unchanged_sent_written].
  - exists e'. pose proof (written_row_id now e e' _ Hw) as [Hid _].
    split; [now apply find_replace_row|].
    split; [now apply (written_row_absent_kept now)|].
    intros r [= <-]. split; [reflexivity|].
    now apply (written_row_sent_written now u e).
Qed.

(** C1, as the code has it.  An update request changes no field of the
    stored record that its payload leaves out ([id] and [created_at] are
    never changed), and a successful one stores every value the payload
    does send, [null], empty and zero included.  When the payload is
    [{salary: v}] with a number [v], the request succeeds and the record
    then holds the salary [v]; if [v] differs from the stored salary,
    [updated_at] becomes the time of the update, which is not before
    [created_at]; if [v] equals the stored salary nothing is written and
    [updated_at] keeps its value. *)
Theorem update_employee_partial (now : Z) (u : EmployeeUpdate) (e : Employee)
    (db : Table) :
  primary_key db -> In e db -> created_at e <= now ->
  exists e',
    find (fun r => id r =? id e) (db_after (update_employee now (id e) u) db)
      = Some e'
    /\ absent_kept u e e'
    /\ (forall r, response (update_employee now (id e) u) db = OK r ->
                  r = e' /\ sent_written u e')
    /\ (forall v, u = salary_only (Some v) ->
          response (update_employee now (id e) u) db = OK e'
          /\ (salary e' == v)%Q
          /\ (Qeq_bool (salary e) v = true -> updated_at e' = updated_at e)
          /\ (Qeq_bool (salary e) v = false ->
              updated_at e' = Some now /\ created_at e' <= now)).
Proof.
  intros Hpk Hin Hclock.
  destruct (update_employee_frame now u e db Hpk Hin) as [e' [Hfind [Hkept Hsent]]].
  exists e'. split; [exact Hfind|]. split; [exact Hkept|]. split; [exact Hsent|].
  intros v ->. revert Hfind. unfold db_after, response.
  rewrite update_employee_run, (find_by_id db e Hpk Hin), salary_only_outcome.
  destruct (Qeq_bool (salary e) v) eqn:Hq; cbn [fst snd].
  - rewrite (find_by_id db e Hpk Hin). intros [= <-].
    split; [reflexivity|]. split; [now apply Qeq_bool_iff|].
    split; [reflexivity | discriminate].
  - rewrite find_replace_row; [|reflexivity|exact Hin]. intros [= <-].
    cbn. split; [reflexivity|]. split; [apply Qeq_refl|].
    split; [discriminate|]. intros _. split; [reflexivity | exact Hclock].
Qed.

Lemma update_employee_partial_witness :
  primary_key [carol; dave] /\ In carol [carol; dave] /\ created_at carol <= 200
  /\ exists e',
       response (update_employee 200 1 (salary_only (Some 95000%Q))) [carol; dave]
         = OK e'
       /\ updated_at e' = Some 200 /\ name e' = "Carol".
Proof.
  assert (Hin : In carol [carol; dave]) by (left; reflexivity).
  assert (Hclock : created_at carol <= 200) by (cbn; lia).
  refine (conj primary_key_carol_dave (conj Hin (conj Hclock _))).
  destruct (update_employee_partial 200 (salary_only (Some 95000%Q)) carol
              [carol; dave] primary_key_carol_dave Hin Hclock)
    as [e' [_ [Hkept [_ Hsal]]]].
  destruct (Hsal 95000%Q eq_refl) as [Hresp [_ [_ Hupd]]].
  exists e'. split; [exact Hresp|]. split; [apply Hupd; reflexivity|].
  apply Hkept. reflexivity.
Defined.

(** C1 as stated fails where the payload's salary is the stored one: the
    request succeeds, nothing is written and [updated_at] is still
    [None]; and where the payload is [{salary: null}]: the NOT NULL
    column rejects the write and the request is answered 500. *)
Lemma update_salary_only_counterexample :
  In carol [carol] /\ created_at carol <= 200
  /\ run (update_employee 200 (id carol) (salary_only (Some 90000%Q))) [carol]
     = (OK carol, [carol])
  /\ ~ (exists t, updated_at carol = Some t /\ created_at carol <= t)
  /\ run (update_employee 200 (id carol) (salary_only None)) [carol]
     = (Error 500 "Internal Server Error", [carol]).
Proof.
  split; [left; reflexivity|]. split; [cbn; lia|].
  split; [reflexivity|]. split; [|reflexivity].
  intros [t [H _]]. discriminate.
Qed.

(** ** Email uniqueness *)

Lemma emails_unique_cons (e : Employee) (t : Table) :
  emails_unique (e :: t) <->
  (forall v, email e = Some v -> ~ uses_email t v) /\ emails_unique t.
Proof.
  unfold emails_unique.
  change (stored_emails (e :: t))
    with ((match email e with Some v => [v] | None => [] end) ++ stored_emails t).
  destruct (email e) as [w|]; cbn [app].
  - rewrite NoDup_cons_iff, in_stored_emails. split.
    + intros [Hw Hu]. split; [|exact Hu]. now intros v [= <-].
    + intros [Hw Hu]. split; [|exact Hu]. now apply Hw.
  - split; [intros Hu; split; [discriminate | exact Hu] | tauto].
Qed.

Lemma emails_unique_nil : emails_unique [].
Proof. constructor. Qed.

Lemma emails_unique_insert (t : Table) (e : Employee) :
  emails_unique t -> email_taken t None (email e) = false ->
  emails_unique (t ++ [e]).
Proof.
  intros Hu Hfree.
  assert (Hnot : forall v, email e = Some v -> ~ uses_email t v).
  { intros v Hv Hin. rewrite Hv in Hfree. apply email_taken_insert in Hin.
    congruence. }
  clear Hfree. induction t as [|x t IH]; cbn [app].
  - apply emails_unique_cons. split; [|apply emails_unique_nil].
    intros v _ [r [[] _]].
  - apply emails_unique_cons in Hu. destruct Hu as [Hx Hu].
    apply emails_unique_cons. split.
    + intros v Hv Hin. apply uses_email_app in Hin. destruct Hin as [Hin|He].
      * now apply (Hx v).
      * apply (Hnot v He). exists x. split; [now left | exact Hv].
    + apply IH; [exact Hu|]. intros v Hv [r [Hr Hrv]]. apply (Hnot v Hv).
      exists r. split; [now right | exact Hrv].
Qed.

Lemma emails_unique_filter (p : Employee -> bool) (t : Table) :
  emails_unique t -> emails_unique (filter p t).
Proof.
  induction t as [|e t IH]; cbn [filter]; [trivial|].
  intros Hu. apply emails_unique_cons in Hu. destruct Hu as [He Hu].
  destruct (p e); [|now apply IH].
  apply emails_unique_cons. split; [|now apply IH].
  intros v Hv [r [Hr Hrv]]. apply (He v Hv). apply filter_In in Hr.
  exists r. tauto.
Qed.

Lemma emails_unique_same_row (t : Table) (e r : Employee) (v : string) :
  emails_unique t -> In e t -> In r t -> email e = Some v -> email r = Some v ->
  e = r.
Proof.
  induction t as [|x t IH]; [contradiction|].
  intros Hu He Hr Hev Hrv. apply emails_unique_cons in Hu. destruct Hu as [Hx Hu].
  destruct He as [<-|He], Hr as [<-|Hr].
  - reflexivity.
  - elim (Hx v Hev). now exists r.
  - elim (Hx v Hrv). now exists e.
  - now apply IH.
Qed.

Lemma emails_unique_replace (e e' : Employee) (t : Table) :
  primary_key t -> emails_unique t ->
  (forall v r, email e' = Some v -> In r t -> email r = Some v -> id r = id e) ->
  emails_unique (replace_row e e' t).
Proof.
  unfold primary_key, replace_row. intros Hpk Hu Hfree.
  induction t as [|x t IH]; [apply emails_unique_nil|].
  cbn [map] in Hpk |- *. apply NoDup_cons_iff in Hpk. destruct Hpk as [Hx Hpk].
  apply emails_unique_cons in Hu. destruct Hu as [Hxv Hu].
  apply emails_unique_cons. split.
  - intros v Hv [r [Hr Hrv]]. apply in_map_iff in Hr. destruct Hr as [y [Hy Hyin]].
    destruct (Z.eqb_spec (id x) (id e)) as [E|N];
      destruct (Z.eqb_spec (id y) (id e)) as [E'|N'].
    + apply Hx. rewrite E, <- E'. now apply in_map.
    + subst r. apply N'. apply (Hfree v y Hv); [now right | exact Hrv].
    + apply N. apply (Hfree v x); [congruence | now left | exact Hv].
    + subst r. apply (Hxv v Hv). now exists y.
  - apply IH; try assumption. intros v r Hv Hr. apply Hfree; [exact Hv | now right].
Qed.

Lemma email_taken_update (t : Table) (i : Z) (v : string) :
  email_taken t (Some i) (Some v) = false ->
  forall r, In r t -> email r = Some v -> id r = i.
Proof.
  cbn. intros H r Hr Hv.
  destruct (Z.eqb_spec (id r) i) as [E|N]; [exact E|].
  assert (Hex : existsb (fun e => sql_eq (email e) v && negb (id e =? i)) t = true).
  { apply existsb_exists. exists r. split; [exact Hr|].
    apply andb_true_intro. split; [now apply sql_eq_true|].
    apply negb_true_iff. now apply Z.eqb_neq. }
  congruence.
Qed.

Lemma update_outcome_unique (now : Z) (u : EmployeeUpdate) (e : Employee) (t : Table) :
  primary_key t -> In e t -> emails_unique t ->
  emails_unique (snd (update_outcome now u e t)).
Proof.
  intros Hpk Hin Hu. unfold update_outcome.
  destruct (update_collides u e t); [exact Hu|]. cbv zeta.
  destruct (negb (net_change _ _)); [exact Hu|].
  destruct (written_row now e (updated_attrs u e)) as [e'|] eqn:Hw; [|exact Hu].
  destruct (negb (str_opt_eqb (email e) (a_email (updated_attrs u e)))) eqn:Hsame;
    cbn [andb].
  - destruct (email_taken t (Some (id e)) (a_email (updated_attrs u e))) eqn:Ht;
      [exact Hu|]. cbn [snd].
    apply emails_unique_replace; try assumption.
    intros v r Hv Hr Hrv.
    pose proof (written_row_email now e e' _ Hw) as Hmail.
    rewrite <- Hmail, Hv in Ht. now apply (email_taken_update t (id e) v Ht).
  - cbn [snd]. apply negb_false_iff, str_opt_eqb_true in Hsame.
    apply emails_unique_replace; try assumption.
    intros v r Hv Hr Hrv.
    pose proof (written_row_email now e e' _ Hw) as Hmail.
    rewrite <- Hsame in Hmail.
    rewrite Hmail in Hv.
    now rewrite (emails_unique_same_row t e r v Hu Hin Hr Hv Hrv).
Qed.

(** [delete_employee], flattened. *)
Lemma delete_employee_run (i : Z) (db : Table) :
  run (delete_employee i) db =
    match find (fun r => id r =? i) db with
    | None => (no_such_id i, db)
    | Some e => (OK ("Employee deleted successfully", i),
                 filter (fun r => negb (id r =? id e)) db)
    end.
Proof.
  unfold run, delete_employee.
  destruct (find (fun r => id r =? i) db) as [e|] eqn:Hfind.
  - pose proof (id_fits_found i db e Hfind) as Hfits.
    session. cbn -[id_fits]. rewrite Hfits. cbn.
    rewrite hd_error_filter, Hfind. reflexivity.
  - pose proof (id_fits_not_found i db Hfind) as Hfits.
    session. cbn -[id_fits]. rewrite Hfits. unfold no_such_id.
    destruct (int64 i); cbn; [|reflexivity].
    rewrite hd_error_filter, Hfind. reflexivity.
Qed.

(** An invariant of the table that every INSERT keeps is kept by the
    whole bulk import. *)
Section BulkInvariant.

Variable P : Table -> Prop.

Hypothesis P_insert :
  forall (t : Table) (e : Employee),
    P t -> email_taken t None (email e) = false -> id e = next_id t ->
    P (t ++ [e]).

Lemma add_flush_inv (now : Z) (a : Attrs) (db : Table) (s : Session) :
  session_inv P db s -> session_inv P db (snd (add_flush now a s)).
Proof.
  intros [Hp Hu]. unfold add_flush.
  destruct (inactive s) eqn:Hi;
    [split; [exact Hp | cbn; rewrite Hi; discriminate]|].
  assert (Hfail : forall A (e : Exception),
            session_inv P db (snd (@flush_error A e s))).
  { intros A e. split; [exact Hp | discriminate]. }
  destruct (a_name a) as [n|]; [|apply Hfail].
  destruct (a_role a) as [r|]; [|apply Hfail].
  destruct (a_salary a) as [sal|]; [|apply Hfail].
  destruct (email_taken (rows s) None (a_email a)) eqn:Ht; [apply Hfail|].
  split; [exact Hp|]. intros _. cbn.
  apply P_insert; [now apply Hu | exact Ht | reflexivity].
Qed.

Lemma bulk_item_inv (now : Z) (idx : nat) (p : EmployeeCreate)
    (created : list Z) (errors : list BulkError) (db : Table) (s : Session) :
  session_inv P db s ->
  session_inv P db (snd (bulk_item now idx p created errors s)).
Proof.
  intros Hok.
  assert (Hins : session_inv P db
            (snd (try_except
                    (db_employee <- add_flush now (model_dump p) ;;
                     ret (created ++ [id db_employee], errors))
                    (fun e => ret (created,
                                   errors ++ [mkBulkError idx None (str_exception e)]))
                    s))).
  { pose proof (add_flush_inv now (model_dump p) db s Hok) as H. revert H.
    session. destruct (add_flush now (model_dump p) s) as [[e|x] s']; trivial. }
  unfold bulk_item. destruct (c_email p) as [v|]; [|exact Hins].
  destruct (String.eqb v ""); [exact Hins|].
  revert Hins. session. destruct (inactive s); [trivial|].
  destruct (hd_error _); trivial.
Qed.

Lemma bulk_loop_inv (now : Z) (ps : list EmployeeCreate) (idx : nat)
    (created : list Z) (errors : list BulkError) (db : Table) (s : Session) :
  session_inv P db s ->
  session_inv P db (snd (bulk_loop now idx ps created errors s)).
Proof.
  revert idx created errors s.
  induction ps as [|p ps IH]; intros idx created errors s Hok; cbn [bulk_loop].
  - exact Hok.
  - pose proof (bulk_item_inv now idx p created errors db s Hok) as Hitem.
    unfold bind at 1.
    destruct (bulk_item now idx p created errors s) as [[r|x] s']; cbn [snd] in *.
    + now apply IH.
    + exact Hitem.
Qed.

Lemma bulk_create_employees_inv (now : Z) (ps : list EmployeeCreate) (db : Table) :
  P db -> P (db_after (bulk_create_employees now ps) db).
Proof.
  intros HP. unfold db_after, run, bulk_create_employees.
  assert (Hstart : session_inv P db (mkSession db db false)) by now split.
  pose proof (bulk_loop_inv now ps 0%nat [] [] db _ Hstart) as Hloop.
  unfold bind at 1.
  destruct (bulk_loop now 0 ps [] [] (mkSession db db false)) as [[r|x] s'];
    cbn [snd] in Hloop; destruct Hloop as [Hp Hrows].
  - session. unfold commit. destruct (inactive s') eqn:Hi; cbn.
    + now rewrite Hp.
    + now apply Hrows.
  - cbn. now rewrite Hp.
Qed.

End BulkInvariant.

(** C2.  On a table whose ids are distinct and in which no two records
    share a non-null email, one create, update, delete or bulk-import
    request leaves a table in which no two records share a non-null
    email, whatever the payload and whatever the answer. *)
Theorem email_uniqueness_preserved (db : Table) :
  primary_key db -> emails_unique db ->
  (forall now p, emails_unique (db_after (create_employee now p) db))
  /\ (forall now i u, emails_unique (db_after (update_employee now i u) db))
  /\ (forall i, emails_unique (db_after (delete_employee i) db))
  /\ (forall now ps, emails_unique (db_after (bulk_create_employees now ps) db)).
Proof.
  intros Hpk Hu. repeat split.
  - intros now p. unfold db_after. rewrite create_employee_run.
    assert (Hins : email_taken db None (c_email p) = false ->
                   emails_unique (db ++ [new_row now p db])).
    { intros Ht. now apply emails_unique_insert. }
    destruct (c_email p) as [v|]; [|now apply Hins].
    destruct (String.eqb v ""), (email_taken db None (Some v)) eqn:Ht;
      cbn [snd]; auto.
  - intros now i u. unfold db_after. rewrite update_employee_run.
    destruct (find (fun r => id r =? i) db) as [e|] eqn:Hfind; [|exact Hu].
    apply find_some in Hfind. destruct Hfind as [Hin _].
    now apply update_outcome_unique.
  - intros i. unfold db_after. rewrite delete_employee_run.
    destruct (find (fun r => id r =? i) db); [|exact Hu].
    cbn [snd]. now apply emails_unique_filter.
  - intros now ps.
    apply (bulk_create_employees_inv emails_unique); [|exact Hu].
    intros t e Ht Hfree _. now apply emails_unique_insert.
Qed.

Lemma emails_unique_carol_dave : emails_unique [carol; dave].
Proof.
  unfold emails_unique. cbn.
  constructor; [intros [H|[]]; discriminate|].
  constructor; [intros []|constructor].
Defined.

Lemma email_uniqueness_preserved_witness :
  primary_key [carol; dave] /\ emails_unique [carol; dave]
  /\ emails_unique (db_after (bulk_create_employees 200 [ann; ben]) [carol; dave]).
Proof.
  refine (conj primary_key_carol_dave (conj emails_unique_carol_dave _)).
  apply (email_uniqueness_preserved [carol; dave] primary_key_carol_dave
           emails_unique_carol_dave).
Defined.

(** ** The primary key *)

Lemma primary_key_insert (t : Table) (e : Employee) :
  primary_key t -> id e = next_id t -> primary_key (t ++ [e]).
Proof.
  unfold primary_key. intros Hpk He. rewrite map_app. cbn [map].
  apply NoDup_app; [exact Hpk | repeat constructor; intros [] |].
  intros i Hi [<-|[]]. rewrite He in Hi. now apply next_id_not_in in Hi.
Qed.

Lemma primary_key_filter (p : Employee -> bool) (t : Table) :
  primary_key t -> primary_key (filter p t).
Proof.
  unfold primary_key. induction t as [|e t IH]; cbn; [trivial|].
  intros Hpk. apply NoDup_cons_iff in Hpk. destruct Hpk as [He Hpk].
  destruct (p e); [|now apply IH].
  cbn. constructor; [|now apply IH].
  intros Hin. apply He. apply in_map_iff in Hin. destruct Hin as [r [Hr Hin]].
  apply filter_In in Hin. rewrite <- Hr. apply in_map. tauto.
Qed.

Lemma map_id_replace_row (e e' : Employee) (t : Table) :
  id e' = id e -> map id (replace_row e e' t) = map id t.
Proof.
  intros He'. unfold replace_row. rewrite map_map. apply map_ext.
  intros r. destruct (Z.eqb_spec (id r) (id e)); congruence.
Qed.

(** Every request keeps the ids of the table distinct, so the tables the
    handlers meet all satisfy [primary_key]. *)
Lemma primary_key_preserved (db : Table) :
  primary_key db ->
  (forall now p, primary_key (db_after (create_employee now p) db))
  /\ (forall now i u, primary_key (db_after (update_employee now i u) db))
  /\ (forall i, primary_key (db_after (delete_employee i) db))
  /\ (forall now ps, primary_key (db_after (bulk_create_employees now ps) db)).
Proof.
  intros Hpk. repeat split.
  - intros now p. unfold db_after. rewrite create_employee_run.
    assert (Hins : primary_key (db ++ [new_row now p db]))
      by now apply primary_key_insert.
    destruct (c_email p) as [v|]; [|exact Hins].
    destruct (String.eqb v ""), (email_taken db None (Some v)); cbn [snd]; auto.
  - intros now i u. unfold db_after. rewrite update_employee_run.
    destruct (find (fun r => id r =? i) db) as [e|]; [|exact Hpk].
    destruct (update_outcome_cases now u e db)
      as [[c [d ->]]|[[_ ->]|[e' [_ [Hw ->]]]]]; cbn [snd]; try exact Hpk.
    unfold primary_key. rewrite map_id_replace_row; [exact Hpk|].
    now apply (written_row_id now e e' _ Hw).
  - intros i. unfold db_after. rewrite delete_employee_run.
    destruct (find (fun r => id r =? i) db); [|exact Hpk].
    cbn [snd]. now apply primary_key_filter.
  - intros now ps. apply (bulk_create_employees_inv primary_key); [|exact Hpk].
    intros t e Ht _ He. now apply primary_key_insert.
Qed.

(** ** Bulk import *)

(** C3.  A batch of two entries that carry the same well-formed email,
    stored by no record so far, is answered with [created = 1], the id of
    the first entry's new row as the only element of [employee_ids], and
    the single error [{index: 1, email, "Email already exists"}].  The
    request succeeds and the table afterwards is the old one followed by
    the first entry's row, whose id was held by no record. *)
Theorem bulk_same_email_twice (now : Z) (p1 p2 : EmployeeCreate) (v : string)
    (db : Table) :
  c_email p1 = Some v -> c_email p2 = Some v -> v <> "" -> ~ uses_email db v ->
  run (bulk_create_employees now [p1; p2]) db
  = (OK (mkBulk 1 [id (new_row now p1 db)]
           [mkBulkError 1 (Some v) "Email already exists"]),
     db ++ [new_row now p1 db])
  /\ ~ In (id (new_row now p1 db)) (map id db).
Proof.
  intros H1 H2 Hne Hfree. split; [|apply next_id_not_in].
  assert (Hfind1 : find (fun e => sql_eq (email e) v) db = None).
  { destruct (find (fun e => sql_eq (email e) v) db) as [r|] eqn:Hf;
      [|reflexivity].
    elim Hfree. apply find_email_some. now exists r. }
  assert (Htaken : email_taken db None (Some v) = false).
  { destruct (email_taken db None (Some v)) eqn:Ht; [|reflexivity].
    apply email_taken_insert in Ht. contradiction. }
  assert (Hfind2 : exists r, find (fun e => sql_eq (email e) v)
                               (db ++ [new_row now p1 db]) = Some r).
  { apply find_email_some, uses_email_app. right. exact H1. }
  destruct Hfind2 as [r Hfind2].
  apply String.eqb_neq in Hne.
  unfold run, bulk_create_employees, bulk_loop, bulk_item.
  rewrite H1, H2, Hne. session. unfold add_flush, model_dump.
  cbn -[email_taken]. rewrite hd_error_filter, Hfind1.
  cbn -[email_taken]. rewrite H1, Htaken.
  cbn -[email_taken]. rewrite hd_error_filter.
  unfold new_row in Hfind2 |- *. rewrite H1 in Hfind2 |- *.
  rewrite Hfind2. reflexivity.
Qed.

Lemma bulk_same_email_twice_witness :
  c_email ann = Some "a@x.com" /\ c_email ben = Some "a@x.com"
  /\ "a@x.com" <> "" /\ ~ uses_email [] "a@x.com"
  /\ run (bulk_create_employees 100 [ann; ben]) []
     = (OK (mkBulk 1 [1] [mkBulkError 1 (Some "a@x.com") "Email already exists"]),
        [new_row 100 ann []]).
Proof.
  assert (Hne : "a@x.com" <> "") by discriminate.
  assert (Hfree : ~ uses_email [] "a@x.com") by (intros [e [[] _]]).
  refine (conj eq_refl (conj eq_refl (conj Hne (conj Hfree _)))).
  exact (proj1 (bulk_same_email_twice 100 ann ben "a@x.com" []
                  eq_refl eq_refl Hne Hfree)).
Defined.

(** ** Listing *)

Lemma filter_true {A} (l : list A) : filter (fun _ => true) l = l.
Proof.
  induction l as [|x l IH]; cbn; [reflexivity | now rewrite IH].
Qed.

Lemma filter_filter {A} (p q : A -> bool) (l : list A) :
  filter q (filter p l) = filter (fun x => p x && q x) l.
Proof.
  induction l as [|x l IH]; cbn; [reflexivity|].
  destruct (p x); cbn; [|exact IH].
  destruct (q x); [now rewrite IH | exact IH].
Qed.

Lemma in_firstn {A} (n : nat) (l : list A) (x : A) : In x (firstn n l) -> In x l.
Proof.
  intros H. rewrite <- (firstn_skipn n l). apply in_or_app. now left.
Qed.

Lemma in_skipn {A} (n : nat) (l : list A) (x : A) : In x (skipn n l) -> In x l.
Proof.
  intros H. rewrite <- (firstn_skipn n l). apply in_or_app. now right.
Qed.

Lemma int64_spec (z : Z) : int64 z = true <-> - 2 ^ 63 <= z < 2 ^ 63.
Proof.
  unfold int64. rewrite andb_true_iff, Z.leb_le, Z.ltb_lt. tauto.
Qed.


Lemma offset_fits_position (t : Table) (n : Z) :
  0 <= n <= Z.of_nat (List.length t) -> offset_fits t n = true.
Proof.
  intros Hn. unfold offset_fits.
  assert (H : (0 <=? n) && (n <=? Z.of_nat (List.length t)) = true).
  { apply andb_true_intro. split; [apply Z.leb_le | apply Z.leb_le]; lia. }
  rewrite H. apply orb_true_r.
Qed.

Lemma clauses_selected (search department' : option string) (t : Table) :
  rows_of (department_clause department' (search_clause search query_Employee)) t
  = selected search department' t
  /\ parameters_fit
       (department_clause department' (search_clause search query_Employee)) t
     = true.
Proof.
  unfold selected, department_clause, search_clause.
  destruct search as [s|]; [destruct (String.eqb s "") eqn:Es|];
    (destruct department' as [d|]; [destruct (String.eqb d "") eqn:Ed|]);
    unfold matches_search, matches_department; rewrite ?Es, ?Ed;
    cbn [q_filter query_Employee rows_of parameters_fit];
    (split; [|reflexivity]);
    rewrite ?filter_filter;
    match goal with
    | |- filter _ _ = filter _ _ =>
        apply filter_ext; intros e; cbn; rewrite ?andb_true_r; reflexivity
    | |- ?l = filter _ ?l =>
        rewrite <- (filter_true l) at 1; apply filter_ext; intros e; reflexivity
    end.
Qed.

(** [get_employees], flattened. *)
Lemma get_employees_run (skip limit : Z) (search department' : option string)
    (db : Table) :
  run (get_employees skip limit search department') db
  = if offset_fits db skip && int64 limit
    then (OK (mkList (Z.of_nat (List.length (selected search department' db)))
                (if limit <? 0
                 then skipn (Z.to_nat skip) (selected search department' db)
                 else firstn (Z.to_nat limit)
                        (skipn (Z.to_nat skip) (selected search department' db)))),
          db)
    else (Error 500 "Internal Server Error", db).
Proof.
  unfold run, get_employees.
  destruct (clauses_selected search department' db) as [Hrows Hfit].
  cbv beta iota zeta delta
    [bind ret raise select execute all_ count q_offset q_limit].
  cbn -[offset_fits int64 department_clause search_clause].
  rewrite Hfit, Hrows.
  cbn -[offset_fits int64 department_clause search_clause].
  rewrite ?Hfit, ?Hrows. rewrite andb_true_l.
  destruct (offset_fits db skip && int64 limit); reflexivity.
Qed.




(** C9.  An empty [search] selects and returns what an absent one does,
    and so does an empty [department]: the requests have the same answer.
    Hence a request that returns a record whose department is the empty
    string applied no department filter at all: its answer is that of
    the request without [department]. *)
Theorem get_employees_empty_filters (skip limit : Z)
    (search department' : option string) (db : Table) :
  run (get_employees skip limit (Some "") department') db
    = run (get_employees skip limit None department') db
  /\ run (get_employees skip limit search (Some "")) db
     = run (get_employees skip limit search None) db
  /\ (forall r e,
        response (get_employees skip limit search department') db = OK r ->
        In e (employees r) -> department e = Some "" ->
        run (get_employees skip limit search department') db
        = run (get_employees skip limit search None) db).
Proof.
  split; [reflexivity|]. split; [reflexivity|].
  intros r e Hr He Hd. destruct department' as [d|]; [|reflexivity].
  destruct (String.eqb_spec d "") as [->|Hne]; [reflexivity|].
  exfalso. unfold response in Hr. rewrite get_employees_run in Hr.
  destruct (offset_fits db skip && int64 limit); [|discriminate Hr].
  cbn [fst] in Hr. injection Hr as <-. cbn [employees] in He.
  assert (Hsel : In e (selected search (Some d) db)).
  { destruct (limit <? 0).
    - eapply in_skipn. exact He.
    - eapply in_skipn. eapply in_firstn. exact He. }
  unfold selected in Hsel. apply filter_In in Hsel. destruct Hsel as [_ Hm].
  apply andb_prop in Hm. destruct Hm as [_ Hm]. unfold matches_department in Hm.
  apply String.eqb_neq in Hne. rewrite Hne in Hm. apply sql_eq_true in Hm.
  rewrite Hd in Hm. injection Hm as <-. now apply String.eqb_neq in Hne.
Qed.

Lemma get_employees_empty_filters_witness :
  response (get_employees 0 100 None (Some "")) [carol; erin]
    = OK (mkList 2 [carol; erin])
  /\ In erin [carol; erin] /\ department erin = Some ""
  /\ run (get_employees 0 100 None (Some "")) [carol; erin]
     = run (get_employees 0 100 None None) [carol; erin].
Proof.
  assert (Hr : response (get_employees 0 100 None (Some "")) [carol; erin]
               = OK (mkList 2 [carol; erin])) by reflexivity.
  assert (Hin : In erin (employees (mkList 2 [carol; erin])))
    by (right; left; reflexivity).
  refine (conj Hr (conj Hin (conj eq_refl _))).
  exact (proj2 (proj2 (get_employees_empty_filters 0 100 None (Some "")
                         [carol; erin])) _ erin Hr Hin eq_refl).
Defined.

(** ** Statistics *)

(** [get_employee_stats] reads only. *)
Lemma get_employee_stats_reads (datetime_now : Z) (db : Table) :
  exists s, run (get_employee_stats datetime_now) db = (OK s, db)
            /\ departments s
               = map (fun '(dept, count) => mkDept (or_Unassigned dept) count)
                     (group_count (map department db)).
Proof.
  unfold run, get_employee_stats. session. cbn.
  eexists. split; reflexivity.
Qed.

(** C7.  On the empty table [get_employee_stats] answers, without error,
    [{total_employees: 0, average_salary: 0, average_performance: 0,
    growth_rate: 0, recent_hires: 0, departments: []}]; and on every
    table it leaves the table as it was. *)
Theorem get_employee_stats_empty (datetime_now : Z) :
  response (get_employee_stats datetime_now) []
    = OK (mkStats 0 0 0 0 0 [])
  /\ forall db, db_after (get_employee_stats datetime_now) db = db.
Proof.
  split; [reflexivity|].
  intros db. unfold db_after.
  destruct (get_employee_stats_reads datetime_now db) as [s [-> _]].
  reflexivity.
Qed.

Lemma str_opt_eqb_false (x y : option string) :
  str_opt_eqb x y = false <-> x <> y.
Proof.
  destruct (str_opt_eqb x y) eqn:E.
  - apply str_opt_eqb_true in E. split; [discriminate | contradiction].
  - split; [|reflexivity]. intros _ H. apply str_opt_eqb_true in H. congruence.
Qed.

Lemma in_group_keys (ks : list (option string)) (k : option string) :
  In k (group_keys ks) <-> In k ks.
Proof.
  induction ks as [|x ks IH]; cbn [group_keys]; [tauto|].
  cbn [In]. rewrite filter_In, IH, negb_true_iff, str_opt_eqb_false.
  split.
  - tauto.
  - intros [->|H]; [now left|].
    destruct (str_opt_eqb k x) eqn:E.
    + apply str_opt_eqb_true in E. now left.
    + apply str_opt_eqb_false in E. right. tauto.
Qed.

Lemma headcount_group (k : option string) (t : Table) :
  Z.of_nat (List.length (filter (str_opt_eqb k) (map department t)))
  = headcount k t.
Proof.
  unfold headcount. f_equal.
  induction t as [|e t IH]; cbn; [reflexivity|].
  destruct (str_opt_eqb k (department e)); cbn; now rewrite IH.
Qed.

Lemma in_group_count (t : Table) (e : Employee) :
  In e t ->
  In (department e, headcount (department e) t)
     (group_count (map department t)).
Proof.
  intros Hin. unfold group_count. rewrite <- headcount_group.
  apply (in_map (fun k => (k, Z.of_nat (List.length
                                 (filter (str_opt_eqb k) (map department t)))))).
  apply in_group_keys. now apply in_map.
Qed.

Lemma or_Unassigned_not_empty (dept : option string) : or_Unassigned dept <> "".
Proof.
  unfold or_Unassigned. destruct dept as [d|]; [|discriminate].
  destruct (String.eqb_spec d ""); [discriminate | assumption].
Qed.

Lemma department_breakdown_eq (datetime_now : Z) (db : Table) :
  department_breakdown datetime_now db
  = map (fun '(dept, count) => mkDept (or_Unassigned dept) count)
        (group_count (map department db)).
Proof.
  unfold department_breakdown, response.
  destruct (get_employee_stats_reads datetime_now db) as [s [-> Hd]].
  exact Hd.
Qed.

Lemma str_opt_eqb_sym (x y : option string) : str_opt_eqb x y = str_opt_eqb y x.
Proof.
  destruct (str_opt_eqb y x) eqn:E.
  - apply str_opt_eqb_true in E. subst. apply str_opt_eqb_refl.
  - apply str_opt_eqb_false in E. apply str_opt_eqb_false. congruence.
Qed.

Lemma NoDup_group_keys (ks : list (option string)) : NoDup (group_keys ks).
Proof.
  induction ks as [|k ks IH]; cbn [group_keys]; constructor.
  - rewrite filter_In, str_opt_eqb_refl. intros [_ H]. discriminate H.
  - now apply NoDup_filter.
Qed.

Lemma or_Unassigned_cases (k : option string) :
  or_Unassigned k
  = match k with
    | None => "Unassigned"
    | Some EmptyString => "Unassigned"
    | Some d => d
    end.
Proof. destruct k as [[|c d]|]; reflexivity. Qed.

(** C10, as the code has it.  The department breakdown has one entry for
    each distinct stored value of [department], the null and the empty
    string being two values; the entry counts the records with exactly
    that value, and it is labelled with the value, or "Unassigned" when
    the value is null or the empty string.  So no entry is labelled with
    the empty string; the records whose department is the empty string
    are counted in an entry labelled "Unassigned" that counts exactly
    those, the records whose department is null in an entry labelled
    "Unassigned" that counts exactly those; and when the table holds
    records of both kinds these are two entries, at two positions of the
    list: the two kinds share the label, not the entry. *)
Theorem departments_unassigned (datetime_now : Z) (db : Table) :
  (forall g, In g (department_breakdown datetime_now db) -> dept_name g <> "")
  /\ (forall e, In e db -> department e = Some "" ->
        In (mkDept "Unassigned" (headcount (Some "") db))
           (department_breakdown datetime_now db))
  /\ (forall e, In e db -> department e = None ->
        In (mkDept "Unassigned" (headcount None db))
           (department_breakdown datetime_now db))
  /\ (exists keys : list (option string),
        NoDup keys
        /\ (forall k, In k keys <-> exists e, In e db /\ department e = k)
        /\ department_breakdown datetime_now db
           = map (fun k => mkDept match k with
                                  | None => "Unassigned"
                                  | Some EmptyString => "Unassigned"
                                  | Some d => d
                                  end
                                  (Z.of_nat
                                     (List.length
                                        (filter (fun e => str_opt_eqb (department e) k)
                                           db))))
                 keys)
  /\ (forall e e', In e db -> department e = Some "" ->
                   In e' db -> department e' = None ->
        exists i j : nat,
          i <> j
          /\ nth_error (department_breakdown datetime_now db) i
             = Some (mkDept "Unassigned" (headcount (Some "") db))
          /\ nth_error (department_breakdown datetime_now db) j
             = Some (mkDept "Unassigned" (headcount None db))).
Proof.
  rewrite department_breakdown_eq.
  assert (Hentry : forall e, In e db ->
            In (mkDept (or_Unassigned (department e)) (headcount (department e) db))
               (map (fun '(dept, count) => mkDept (or_Unassigned dept) count)
                    (group_count (map department db)))).
  { intros e He.
    apply (in_map (fun '(dept, count) => mkDept (or_Unassigned dept) count)
             _ _ (in_group_count db e He)). }
  assert (Hmap : map (fun '(dept, count) => mkDept (or_Unassigned dept) count)
                   (group_count (map department db))
                 = map (fun k => mkDept (or_Unassigned k) (headcount k db))
                     (group_keys (map department db))).
  { unfold group_count. rewrite map_map. apply map_ext. intros k.
    now rewrite headcount_group. }
  split; [|split; [|split; [|split]]].
  - intros g Hg. apply in_map_iff in Hg. destruct Hg as [[dept n] [<- _]].
    apply or_Unassigned_not_empty.
  - intros e He Hd. specialize (Hentry e He). now rewrite Hd in Hentry.
  - intros e He Hd. specialize (Hentry e He). now rewrite Hd in Hentry.
  - exists (group_keys (map department db)).
    split; [apply NoDup_group_keys|]. split.
    + intros k. rewrite in_group_keys, in_map_iff.
      split; intros [e [H1 H2]]; exists e; tauto.
    + rewrite Hmap. apply map_ext. intros k.
      rewrite or_Unassigned_cases. f_equal. unfold headcount. do 2 f_equal.
      apply filter_ext. intros e. apply str_opt_eqb_sym.
  - intros e e' He Hd He' Hd'. rewrite Hmap.
    assert (Hk : In (Some "") (group_keys (map department db))).
    { apply in_group_keys. rewrite <- Hd. now apply in_map. }
    assert (Hk' : In None (group_keys (map department db))).
    { apply in_group_keys. rewrite <- Hd'. now apply in_map. }
    apply In_nth_error in Hk. destruct Hk as [i Hi].
    apply In_nth_error in Hk'. destruct Hk' as [j Hj].
    exists i, j. split; [intros ->; congruence|].
    rewrite !nth_error_map, Hi, Hj. split; reflexivity.
Qed.

Lemma departments_unassigned_witness :
  In erin [carol; erin; frank] /\ department erin = Some ""
  /\ In (mkDept "Unassigned" 1) (department_breakdown 200 [carol; erin; frank]).
Proof.
  assert (Hin : In erin [carol; erin; frank]) by (right; left; reflexivity).
  refine (conj Hin (conj eq_refl _)).
  exact (proj1 (proj2 (departments_unassigned 200 [carol; erin; frank]))
           erin Hin eq_refl).
Defined.

(** C10 as stated fails on a table with one record of each kind: the
    breakdown has two entries labelled "Unassigned", each counting one
    record, and no entry that counts both. *)
Lemma departments_unassigned_counterexample :
  department erin = Some "" /\ department frank = None
  /\ department_breakdown 200 [erin; frank]
     = [mkDept "Unassigned" 1; mkDept "Unassigned" 1]
  /\ ~ (exists g, In g (department_breakdown 200 [erin; frank])
                  /\ dept_name g = "Unassigned" /\ dept_count g = 2).
Proof.
  split; [reflexivity|]. split; [reflexivity|].
  assert (H : department_breakdown 200 [erin; frank]
              = [mkDept "Unassigned" 1; mkDept "Unassigned" 1]) by reflexivity.
  split; [exact H|]. rewrite H.
  intros [g [[<-|[<-|[]]] [_ Hc]]]; discriminate.
Qed.

(** ** CSV export *)

Lemma append_assoc (a b c : string) : ((a ++ b) ++ c = a ++ (b ++ c))%string.
Proof.
  induction a as [|x a IH]; cbn; [reflexivity | now rewrite IH].
Qed.

Lemma append_empty_r (a : string) : (a ++ "" = a)%string.
Proof.
  induction a as [|x a IH]; cbn; [reflexivity | now rewrite IH].
Qed.

Lemma fold_writerow {A} (f : A -> list string) (l : list A) (output : string) :
  fold_left (fun output x => writerow output (f x)) l output
  = (output ++ join_lines (map (fun x => csv_line (f x)) l))%string.
Proof.
  revert output. induction l as [|x l IH]; intros output; cbn [fold_left map].
  - cbn. now rewrite append_empty_r.
  - rewrite IH. unfold writerow. cbn [join_lines fold_right].
    apply append_assoc.
Qed.

(** *** The writer, read back *)

Lemma not_special (c : ascii) :
  special c = false ->
  Ascii.eqb c (ascii_of_nat 44) = false /\ Ascii.eqb c (ascii_of_nat 34) = false
  /\ Ascii.eqb c (ascii_of_nat 13) = false /\ Ascii.eqb c (ascii_of_nat 10) = false.
Proof.
  unfold special, comma, dquote, cr, lf. intros H.
  apply orb_false_iff in H. destruct H as [H H4].
  apply orb_false_iff in H. destruct H as [H H3].
  apply orb_false_iff in H. destruct H as [H1 H2].
  repeat split; assumption.
Qed.

Lemma read_delimited (k : string) :
  delimited k ->
  read Unquoted k = read FieldStart k /\ read QuoteSeen k = read FieldStart k.
Proof.
  intros [k' [->| ->]]; split; reflexivity.
Qed.

Lemma read_unquoted (f k g : string) (fs : list string) (rs : list (list string)) :
  needs_quotes f = false ->
  read Unquoted k = Some ((g :: fs) :: rs) ->
  read Unquoted (f ++ k) = Some (((f ++ g)%string :: fs) :: rs).
Proof.
  intros Hf Hk. induction f as [|c f IH]; cbn [String.append]; [exact Hk|].
  cbn [needs_quotes] in Hf. apply orb_false_iff in Hf. destruct Hf as [Hc Hf].
  destruct (not_special c Hc) as [H1 [H2 [H3 H4]]].
  cbn [read]. rewrite H1, H2, H3, H4, (IH Hf). reflexivity.
Qed.

Lemma read_quoted (f k g : string) (fs : list string) (rs : list (list string)) :
  read QuoteSeen k = Some ((g :: fs) :: rs) ->
  read Quoted (double_quotes f ++ String dquote k)
  = Some (((f ++ g)%string :: fs) :: rs).
Proof.
  intros Hk. induction f as [|c f IH]; cbn [String.append double_quotes].
  - exact Hk.
  - destruct (Ascii.eqb_spec c dquote) as [->|Hc].
    + cbn [String.append]. change (read Quoted (String dquote (String dquote
         (double_quotes f ++ String dquote k))))
        with (push_char dquote (read Quoted (double_quotes f ++ String dquote k))).
      rewrite IH. reflexivity.
    + cbn [String.append read].
      apply Ascii.eqb_neq in Hc. unfold dquote in Hc. rewrite Hc, IH.
      reflexivity.
Qed.

(** One field, as the writer prints it, is read back as it was. *)
Lemma read_field (f k g : string) (fs : list string) (rs : list (list string)) :
  delimited k ->
  read FieldStart k = Some ((g :: fs) :: rs) ->
  read FieldStart (csv_field f ++ k) = Some (((f ++ g)%string :: fs) :: rs).
Proof.
  intros Hd Hk. destruct (read_delimited k Hd) as [Hu Hq].
  unfold csv_field. destruct (needs_quotes f) eqn:Hf.
  - cbn [String.append]. rewrite append_assoc. cbn [String.append].
    change (read FieldStart (String dquote (double_quotes f ++ String dquote k)))
      with (read Quoted (double_quotes f ++ String dquote k)).
    apply read_quoted. now rewrite Hq.
  - destruct f as [|c f]; [exact Hk|].
    cbn [needs_quotes] in Hf. apply orb_false_iff in Hf. destruct Hf as [Hc Hf].
    destruct (not_special c Hc) as [H1 [H2 [H3 H4]]].
    cbn [String.append read]. rewrite H1, H2, H3, H4.
    rewrite (read_unquoted f k g fs rs Hf) by now rewrite Hu.
    reflexivity.
Qed.

(** One line, as the writer prints it, is read back as its cells. *)
Lemma read_line (c : string) (cs : list string) (rest : string)
    (rs : list (list string)) :
  read FieldStart rest = Some rs ->
  read FieldStart (csv_line (c :: cs) ++ rest) = Some ((c :: cs) :: rs).
Proof.
  intros Hrest. unfold csv_line, lineterminator. rewrite append_assoc.
  cbn [String.append].
  assert (Hend : read FieldStart (String cr (String lf rest)) = Some ([""] :: rs)).
  { change (read FieldStart (String cr (String lf rest)))
      with (new_record (read FieldStart rest)).
    now rewrite Hrest. }
  revert c. induction cs as [|c' cs IH]; intros c.
  - cbn [map String.concat].
    rewrite (read_field c _ "" [] rs); [now rewrite append_empty_r | | exact Hend].
    exists (String lf rest). now right.
  - cbn [map String.concat]. cbn [map] in IH.
    rewrite !append_assoc. cbn [String.append].
    rewrite (read_field c _ "" (c' :: cs) rs); [now rewrite append_empty_r | |].
    + eexists. left. reflexivity.
    + change (read FieldStart (String comma ?x)) with (new_field (read FieldStart x)).
      set (x := (String.concat (String comma "") (csv_field c' :: map csv_field cs)
                 ++ String cr (String lf rest))%string).
      change (new_field (read FieldStart x) = Some (("" :: c' :: cs) :: rs)).
      unfold x. now rewrite (IH c').
Qed.

(** The lines the writer prints are read back as the rows it was given. *)
Lemma read_lines (rows : list (list string)) :
  Forall (fun r => r <> []) rows ->
  read FieldStart (join_lines (map csv_line rows)) = Some rows.
Proof.
  induction 1 as [|r rows Hr _ IH]; [reflexivity|].
  destruct r as [|c cs]; [contradiction|].
  cbn [map join_lines fold_right]. now apply read_line.
Qed.

Lemma needs_quotes_plain (s : string) : plain s -> needs_quotes s = false.
Proof.
  unfold plain. induction s as [|c s IH]; cbn [list_ascii_of_string needs_quotes];
    [reflexivity|].
  intros H. apply Forall_cons_iff in H. destruct H as [Hc Hs].
  rewrite (IH Hs), orb_false_r. unfold special, comma, dquote, cr, lf.
  cbn [In] in Hc.
  destruct (Ascii.eqb_spec c (ascii_of_nat 44)) as [E|_]; [symmetry in E; tauto|].
  destruct (Ascii.eqb_spec c (ascii_of_nat 34)) as [E|_]; [symmetry in E; tauto|].
  destruct (Ascii.eqb_spec c (ascii_of_nat 13)) as [E|_]; [symmetry in E; tauto|].
  destruct (Ascii.eqb_spec c (ascii_of_nat 10)) as [E|_]; [symmetry in E; tauto|].
  reflexivity.
Qed.

Lemma csv_line_plain (cs : list string) :
  Forall plain cs ->
  csv_line cs
  = (String.concat "," cs ++ String (ascii_of_nat 13) (String (ascii_of_nat 10) ""))%string.
Proof.
  intros H. unfold csv_line. f_equal.
  replace (map csv_field cs) with cs; [reflexivity|].
  induction H as [|c cs Hc _ IH]; [reflexivity|].
  cbn [map]. rewrite <- IH. f_equal. unfold csv_field.
  now rewrite (needs_quotes_plain c Hc).
Qed.

(** C8.  The export answers a text and leaves the table as it was.  Read
    as CSV, the text is the header row, whose nine cells are ID, Name,
    Email, Role, Department, Salary, Performance Rating, Skills and
    Created At, followed by one row of nine cells per stored record, in
    the order of the table: id, name, email, role, department, salary,
    performance rating, skills and creation time, with the empty string
    for an absent email, department, skills or rating.  When no cell
    holds a comma, a quote or a line break, the text is, character by
    character, the header line and then for each record its cells joined
    by commas, every line ended by CR LF.  On the empty table the text is
    the header line alone. *)
Theorem export_employees_csv_rows (str_float : Q -> string)
    (str_datetime : Z -> string) (db : Table) :
  let crlf := String (ascii_of_nat 13) (String (ascii_of_nat 10) "") in
  let heading :=
    ("ID,Name,Email,Role,Department,Salary,Performance Rating,Skills,Created At"
     ++ crlf)%string in
  let row := fun e : Employee =>
    [NilZero.string_of_int (Z.to_int (id e));
     name e;
     match email e with Some s => s | None => "" end;
     role e;
     match department e with Some s => s | None => "" end;
     str_float (salary e);
     match performance_rating e with Some x => str_float x | None => "" end;
     match skills e with Some s => s | None => "" end;
     str_datetime (created_at e)] in
  (exists text : string,
     run (export_employees_csv str_float str_datetime) db = (OK text, db)
     /\ read_csv text
        = Some (["ID"; "Name"; "Email"; "Role"; "Department"; "Salary";
                 "Performance Rating"; "Skills"; "Created At"]
                :: map row db)
     /\ (Forall (fun e => Forall plain (row e)) db ->
         text = (heading
                 ++ fold_right String.append ""
                      (map (fun e => String.concat "," (row e) ++ crlf) db))%string))
  /\ run (export_employees_csv str_float str_datetime) [] = (OK heading, []).
Proof.
  intros crlf heading row.
  assert (Hrun : forall t,
            run (export_employees_csv str_float str_datetime) t
            = (OK (csv_line header
                   ++ join_lines (map (fun e => csv_line (cells str_float str_datetime e)) t))%string,
               t)).
  { intros t. unfold run, export_employees_csv. session.
    cbn [inactive rows persisted respond]. rewrite fold_writerow. reflexivity. }
  assert (Hcells : forall e, cells str_float str_datetime e = row e).
  { intros e. unfold cells, row, or_empty, str_int. reflexivity. }
  split; [|rewrite Hrun; reflexivity].
  eexists. split; [apply Hrun|]. split.
  - unfold read_csv.
    assert (Htext : (csv_line header
                     ++ join_lines (map (fun e => csv_line (cells str_float str_datetime e)) db))%string
                    = join_lines (map csv_line
                                    (header :: map (cells str_float str_datetime) db))).
    { cbn [map join_lines fold_right]. now rewrite map_map. }
    rewrite Htext, read_lines.
    + reflexivity.
    + constructor; [discriminate|]. apply Forall_forall. intros r Hr.
      apply in_map_iff in Hr. destruct Hr as [e [<- _]]. discriminate.
  - intros Hplain. f_equal. f_equal.
    induction Hplain as [|e t He _ IH]; [reflexivity|].
    cbn [map join_lines fold_right]. rewrite Hcells.
    rewrite (csv_line_plain (row e) He). f_equal. exact IH.
Qed.

Lemma export_employees_csv_rows_witness :
  Forall (fun e => Forall plain
            [NilZero.string_of_int (Z.to_int (id e));
             name e;
             match email e with Some s => s | None => "" end;
             role e;
             match department e with Some s => s | None => "" end;
             "?";
             match performance_rating e with Some x => "?" | None => "" end;
             match skills e with Some s => s | None => "" end;
             "?"])
         [frank]
  /\ email frank = None /\ department frank = None /\ skills frank = None
  /\ response (export_employees_csv (fun _ => "?") (fun _ => "?")) [frank]
     = OK ("ID,Name,Email,Role,Department,Salary,Performance Rating,Skills,Created At"
           ++ String (ascii_of_nat 13) (String (ascii_of_nat 10)
                ("4,Frank,,Clerk,,?,?,,?"
                 ++ String (ascii_of_nat 13) (String (ascii_of_nat 10) ""))))%string.
Proof.
  assert (Hplain : Forall (fun e => Forall plain
            [NilZero.string_of_int (Z.to_int (id e));
             name e;
             match email e with Some s => s | None => "" end;
             role e;
             match department e with Some s => s | None => "" end;
             "?";
             match performance_rating e with Some x => "?" | None => "" end;
             match skills e with Some s => s | None => "" end;
             "?"])
         [frank]).
  { repeat constructor; cbn; intros H;
      repeat (destruct H as [H|H]; [discriminate H|]); exact H. }
  refine (conj Hplain (conj eq_refl (conj eq_refl (conj eq_refl _)))).
  destruct (proj1 (export_employees_csv_rows (fun _ => "?") (fun _ => "?") [frank]))
    as [text [Hrun [_ Htext]]].
  unfold response. rewrite Hrun. cbn [fst]. rewrite (Htext Hplain). reflexivity.
Defined.

(** * Further properties of the handlers *)

(** ** Lookup, deletion and creation together *)

Lemma find_id_none (i : Z) (t : Table) :
  find (fun r => id r =? i) t = None <-> ~ In i (map id t).
Proof.
  split.
  - intros Hf Hin. apply in_map_iff in Hin. destruct Hin as [r [Hr Hin]].
    pose proof (find_none _ _ Hf r Hin) as H. cbn in H.
    apply Z.eqb_neq in H. congruence.
  - intros Hnot. destruct (find (fun r => id r =? i) t) as [r|] eqn:Hf;
      [|reflexivity].
    apply find_some in Hf. destruct Hf as [Hin Hid]. apply Z.eqb_eq in Hid.
    elim Hnot. rewrite <- Hid. now apply in_map.
Qed.

Lemma find_app {A} (p : A -> bool) (l l' : list A) :
  find p (l ++ l') = match find p l with
                     | Some x => Some x
                     | None => find p l'
                     end.
Proof.
  induction l as [|x l IH]; cbn; [reflexivity|].
  destruct (p x); [reflexivity | exact IH].
Qed.

(** [get_employee], flattened. *)
Lemma get_employee_run (i : Z) (db : Table) :
  run (get_employee i) db =
    match find (fun r => id r =? i) db with
    | Some e => (OK e, db)
    | None => (no_such_id i, db)
    end.
Proof.
  unfold run, get_employee.
  destruct (find (fun r => id r =? i) db) as [e|] eqn:Hfind.
  - pose proof (id_fits_found i db e Hfind) as Hfits.
    session. cbn -[id_fits]. rewrite Hfits. cbn.
    rewrite hd_error_filter, Hfind. reflexivity.
  - pose proof (id_fits_not_found i db Hfind) as Hfits.
    session. cbn -[id_fits]. rewrite Hfits. unfold no_such_id.
    destruct (int64 i); cbn; [|reflexivity].
    rewrite hd_error_filter, Hfind. reflexivity.
Qed.

Lemma no_such_id_404 {A} (i : Z) :
  @no_such_id A i = Error 404 "Employee not found" <-> int64 i = true.
Proof.
  unfold no_such_id. destruct (int64 i); split; congruence.
Qed.

Lemma no_such_id_500 {A} (i : Z) :
  int64 i = false -> @no_such_id A i = Error 500 "Internal Server Error".
Proof.
  intros H. unfold no_such_id. now rewrite H.
Qed.

(** [get_employee] answers 404 exactly for the 64-bit ids that no record
    holds, and 500 for an id of more than 64 bits, which the driver
    cannot bind; an answer is a stored record with the requested id; on a
    table with distinct ids every stored record is the answer to the
    request for its id; the table is never modified. *)
Theorem get_employee_lookup (i : Z) (db : Table) :
  (response (get_employee i) db = Error 404 "Employee not found"
   <-> ~ In i (map id db) /\ - 2 ^ 63 <= i < 2 ^ 63)
  /\ (~ In i (map id db) -> ~ (- 2 ^ 63 <= i < 2 ^ 63) ->
      response (get_employee i) db = Error 500 "Internal Server Error")
  /\ (forall e, response (get_employee i) db = OK e -> In e db /\ id e = i)
  /\ (forall e, primary_key db -> In e db ->
        response (get_employee (id e)) db = OK e)
  /\ db_after (get_employee i) db = db.
Proof.
  unfold response, db_after. split; [|split; [|split; [|split]]].
  - rewrite get_employee_run.
    destruct (find (fun r => id r =? i) db) as [e|] eqn:Hf; cbn [fst].
    + split; [discriminate|]. intros [Hnot _].
      apply find_id_none in Hnot. congruence.
    + rewrite no_such_id_404, int64_spec. apply find_id_none in Hf. tauto.
  - intros Hnot Hrange. apply find_id_none in Hnot.
    rewrite get_employee_run, Hnot. cbn [fst]. apply no_such_id_500.
    destruct (int64 i) eqn:E; [|reflexivity].
    apply int64_spec in E. contradiction.
  - intros e. rewrite get_employee_run.
    destruct (find (fun r => id r =? i) db) as [r|] eqn:Hf.
    + intros [= <-]. apply find_some in Hf. destruct Hf as [Hin Hid].
      split; [exact Hin | now apply Z.eqb_eq].
    + unfold no_such_id. destruct (int64 i); discriminate.
  - intros e Hpk Hin. now rewrite get_employee_run, (find_by_id db e Hpk Hin).
  - rewrite get_employee_run.
    destruct (find (fun r => id r =? i) db); reflexivity.
Qed.

Lemma get_employee_lookup_witness :
  primary_key [carol; dave] /\ In dave [carol; dave]
  /\ response (get_employee 2) [carol; dave] = OK dave.
Proof.
  assert (Hin : In dave [carol; dave]) by (right; left; reflexivity).
  refine (conj primary_key_carol_dave (conj Hin _)).
  exact (proj1 (proj2 (proj2 (proj2 (get_employee_lookup 2 [carol; dave]))))
           dave primary_key_carol_dave Hin).
Defined.

Lemma find_filter_other (i j : Z) (t : Table) :
  j <> i ->
  find (fun r => id r =? j) (filter (fun r => negb (id r =? i)) t)
  = find (fun r => id r =? j) t.
Proof.
  intros Hne. induction t as [|x t IH]; cbn; [reflexivity|].
  destruct (Z.eqb_spec (id x) i) as [E|N]; cbn.
  - destruct (Z.eqb_spec (id x) j) as [E'|_]; [congruence | exact IH].
  - destruct (id x =? j); [reflexivity | exact IH].
Qed.

Lemma find_filter_self (i : Z) (t : Table) :
  find (fun r => id r =? i) (filter (fun r => negb (id r =? i)) t) = None.
Proof.
  induction t as [|x t IH]; cbn; [reflexivity|].
  destruct (Z.eqb_spec (id x) i) as [E|N]; cbn; [exact IH|].
  destruct (Z.eqb_spec (id x) i); [contradiction | exact IH].
Qed.

(** [delete_employee] answers 404 exactly for the 64-bit ids that no
    record holds, and 500 for an id of more than 64 bits; in both cases
    the table is left alone.  For the id of a stored record it succeeds
    and the table keeps, in their order, the records with another id: a
    lookup of the deleted id is then answered as the lookup of an id that
    was never stored and the lookup of any other id is answered as
    before. *)
Theorem delete_employee_removes (i : Z) (db : Table) :
  (response (delete_employee i) db = Error 404 "Employee not found"
   <-> ~ In i (map id db) /\ - 2 ^ 63 <= i < 2 ^ 63)
  /\ (~ In i (map id db) -> ~ (- 2 ^ 63 <= i < 2 ^ 63) ->
      response (delete_employee i) db = Error 500 "Internal Server Error")
  /\ (~ In i (map id db) -> db_after (delete_employee i) db = db)
  /\ (In i (map id db) ->
      run (delete_employee i) db
      = (OK ("Employee deleted successfully", i),
         filter (fun r => negb (id r =? i)) db)
      /\ ~ In i (map id (db_after (delete_employee i) db))
      /\ (- 2 ^ 63 <= i < 2 ^ 63 ->
          response (get_employee i) (db_after (delete_employee i) db)
          = Error 404 "Employee not found")
      /\ forall j, j <> i ->
           response (get_employee j) (db_after (delete_employee i) db)
           = response (get_employee j) db).
Proof.
  unfold response, db_after. rewrite delete_employee_run.
  destruct (find (fun r => id r =? i) db) as [e|] eqn:Hf.
  - pose proof (find_some _ _ Hf) as [Hin Hid]. apply Z.eqb_eq in Hid.
    assert (Hi : In i (map id db)) by (rewrite <- Hid; now apply in_map).
    subst i. cbn [fst snd].
    split; [split; [discriminate | tauto]|].
    split; [contradiction|]. split; [contradiction|].
    intros _. split; [reflexivity|]. split; [|split].
    + apply find_id_none, find_filter_self.
    + intros Hrange. rewrite get_employee_run, find_filter_self. cbn [fst].
      apply no_such_id_404. now apply int64_spec.
    + intros j Hj. rewrite !get_employee_run.
      rewrite (find_filter_other (id e) j db Hj).
      destruct (find (fun r => id r =? j) db); reflexivity.
  - apply find_id_none in Hf. cbn [fst snd].
    split; [rewrite no_such_id_404, int64_spec; tauto|].
    split.
    + intros _ Hrange. apply no_such_id_500.
      destruct (int64 i) eqn:E; [|reflexivity].
      apply int64_spec in E. contradiction.
    + split; [reflexivity | contradiction].
Qed.

Lemma delete_employee_removes_witness :
  In 1 (map id [carol; dave])
  /\ db_after (delete_employee 1) [carol; dave] = [dave].
Proof.
  assert (Hin : In 1 (map id [carol; dave])) by (left; reflexivity).
  split; [exact Hin|]. unfold db_after.
  rewrite (proj1 (proj2 (proj2 (proj2 (delete_employee_removes 1 [carol; dave])))
                    Hin)).
  reflexivity.
Defined.

Lemma create_employee_ok (now : Z) (p : EmployeeCreate) (db : Table) (e : Employee) :
  response (create_employee now p) db = OK e ->
  e = new_row now p db /\ db_after (create_employee now p) db = db ++ [e].
Proof.
  unfold response, db_after. rewrite create_employee_run.
  destruct (c_email p) as [v|].
  - destruct (String.eqb v ""), (email_taken db None (Some v)); cbn [fst snd];
      try discriminate; intros [= <-]; split; reflexivity.
  - cbn [fst snd]. intros [= <-]. split; reflexivity.
Qed.

Lemma find_other_after_insert (j : Z) (db : Table) (e : Employee) :
  j <> id e ->
  find (fun r => id r =? j) (db ++ [e]) = find (fun r => id r =? j) db.
Proof.
  intros Hne. rewrite find_app.
  destruct (find (fun r => id r =? j) db); [reflexivity|]. cbn.
  destruct (Z.eqb_spec (id e) j); [congruence | reflexivity].
Qed.

(** A created record can be looked up at once under its new id, which is
    larger than every id in the table, and the lookup of any other id is
    answered as before the creation. *)
Theorem create_then_get (now : Z) (p : EmployeeCreate) (db : Table) (e : Employee) :
  response (create_employee now p) db = OK e ->
  response (get_employee (id e)) (db_after (create_employee now p) db) = OK e
  /\ (forall r, In r db -> id r < id e)
  /\ (forall j, j <> id e ->
        response (get_employee j) (db_after (create_employee now p) db)
        = response (get_employee j) db).
Proof.
  intros Hok. destruct (create_employee_ok now p db e Hok) as [He ->].
  assert (Hid : id e = next_id db) by now rewrite He.
  unfold response. split; [|split].
  - rewrite get_employee_run, Hid, (find_fresh_row db e Hid). reflexivity.
  - intros r Hr. rewrite Hid. now apply next_id_fresh.
  - intros j Hj. rewrite !get_employee_run, (find_other_after_insert j db e Hj).
    destruct (find (fun r => id r =? j) db); reflexivity.
Qed.

Lemma create_then_get_witness :
  response (create_employee 100 ann) [carol; dave] = OK (new_row 100 ann [carol; dave])
  /\ response (get_employee 3) (db_after (create_employee 100 ann) [carol; dave])
     = OK (new_row 100 ann [carol; dave]).
Proof.
  assert (Hok : response (create_employee 100 ann) [carol; dave]
                = OK (new_row 100 ann [carol; dave])) by reflexivity.
  split; [exact Hok|].
  exact (proj1 (create_then_get 100 ann [carol; dave] _ Hok)).
Defined.



Lemma filter_fresh_row (db : Table) (e : Employee) :
  id e = next_id db ->
  filter (fun r => negb (id r =? id e)) (db ++ [e]) = db.
Proof.
  intros He. rewrite filter_app. cbn. rewrite Z.eqb_refl. cbn.
  rewrite app_nil_r.
  assert (H : forall l, (forall r, In r l -> id r < id e) ->
              filter (fun r => negb (id r =? id e)) l = l).
  { induction l as [|x l IH]; intros Hl; cbn; [reflexivity|].
    destruct (Z.eqb_spec (id x) (id e)) as [E|_]; cbn.
    - specialize (Hl x (or_introl eq_refl)). lia.
    - rewrite IH; [reflexivity|]. intros r Hr. apply Hl. now right. }
  apply H. intros r Hr. rewrite He. now apply next_id_fresh.
Qed.

(** Deleting a record right after its creation gives back the table as
    it was before, and the next record created then receives the id of
    the deleted one: ids are not kept from reuse. *)
Theorem create_delete_restores (now : Z) (p : EmployeeCreate) (db : Table)
    (e : Employee) :
  response (create_employee now p) db = OK e ->
  db_after (delete_employee (id e)) (db_after (create_employee now p) db) = db
  /\ (forall now' q e',
        response (create_employee now' q)
          (db_after (delete_employee (id e)) (db_after (create_employee now p) db))
        = OK e' ->
        id e' = id e).
Proof.
  intros Hok. destruct (create_employee_ok now p db e Hok) as [He Hdb].
  assert (Hid : id e = next_id db) by now rewrite He.
  assert (Hback : db_after (delete_employee (id e))
                    (db_after (create_employee now p) db) = db).
  { rewrite Hdb. unfold db_after at 1. rewrite delete_employee_run.
    rewrite Hid, (find_fresh_row db e Hid). cbn [snd].
    now apply filter_fresh_row. }
  split; [exact Hback|].
  intros now' q e' Hq. rewrite Hback in Hq.
  destruct (create_employee_ok now' q db e' Hq) as [-> _].
  now rewrite Hid.
Qed.

Lemma create_delete_restores_witness :
  response (create_employee 100 ann) [carol; dave] = OK (new_row 100 ann [carol; dave])
  /\ db_after (delete_employee 3) (db_after (create_employee 100 ann) [carol; dave])
     = [carol; dave].
Proof.
  assert (Hok : response (create_employee 100 ann) [carol; dave]
                = OK (new_row 100 ann [carol; dave])) by reflexivity.
  split; [exact Hok|].
  exact (proj1 (create_delete_restores 100 ann [carol; dave] _ Hok)).
Defined.

(** ** More on updates *)

(** A request that is not answered with a record leaves the table as it
    was: creations, updates and deletions are applied whole or not at
    all. *)
Theorem failed_request_changes_nothing (now i : Z) (p : EmployeeCreate)
    (u : EmployeeUpdate) (db : Table) :
  (forall c d, response (create_employee now p) db = Error c d ->
               db_after (create_employee now p) db = db)
  /\ (forall c d, response (update_employee now i u) db = Error c d ->
                  db_after (update_employee now i u) db = db)
  /\ (forall c d, response (delete_employee i) db = Error c d ->
                  db_after (delete_employee i) db = db).
Proof.
  unfold response, db_after. repeat split; intros c d.
  - rewrite create_employee_run. destruct (c_email p) as [v|]; [|discriminate].
    destruct (String.eqb v ""), (email_taken db None (Some v)); cbn [fst snd];
      try discriminate; reflexivity.
  - rewrite update_employee_run.
    destruct (find (fun r => id r =? i) db) as [e|]; [|reflexivity].
    destruct (update_outcome_cases now u e db)
      as [[c' [d' ->]]|[[_ ->]|[e' [_ [_ ->]]]]]; cbn [fst snd];
      try discriminate; reflexivity.
  - rewrite delete_employee_run.
    destruct (find (fun r => id r =? i) db); [discriminate | reflexivity].
Qed.

Lemma failed_request_changes_nothing_witness :
  response (update_employee 200 1 (salary_only None)) [carol; dave]
    = Error 500 "Internal Server Error"
  /\ db_after (update_employee 200 1 (salary_only None)) [carol; dave]
     = [carol; dave].
Proof.
  assert (H : response (update_employee 200 1 (salary_only None)) [carol; dave]
              = Error 500 "Internal Server Error") by reflexivity.
  split; [exact H|].
  exact (proj1 (proj2 (failed_request_changes_nothing 200 1 ann
                         (salary_only None) [carol; dave])) _ _ H).
Defined.

Lemma update_outcome_not_404 (now : Z) (u : EmployeeUpdate) (e : Employee)
    (t : Table) (d : string) :
  fst (update_outcome now u e t) <> Error 404 d.
Proof.
  unfold update_outcome.
  destruct (update_collides u e t); [discriminate|]. cbv zeta.
  destruct (negb (net_change (of_row e) (updated_attrs u e))); [discriminate|].
  destruct (written_row now e (updated_attrs u e)); [|discriminate].
  destruct (negb _ && _); discriminate.
Qed.

(** [update_employee] answers 404 exactly for the 64-bit ids that no
    record holds, and 500 for an id of more than 64 bits, which the driver
    cannot bind; in both cases the table is left alone. *)
Theorem update_employee_not_found (now i : Z) (u : EmployeeUpdate) (db : Table) :
  (response (update_employee now i u) db = Error 404 "Employee not found"
   <-> ~ In i (map id db) /\ - 2 ^ 63 <= i < 2 ^ 63)
  /\ (~ In i (map id db) -> ~ (- 2 ^ 63 <= i < 2 ^ 63) ->
      response (update_employee now i u) db
      = Error 500 "Internal Server Error")
  /\ (~ In i (map id db) -> db_after (update_employee now i u) db = db).
Proof.
  unfold response, db_after. rewrite update_employee_run.
  destruct (find (fun r => id r =? i) db) as [e|] eqn:Hf.
  - pose proof (find_some _ _ Hf) as [Hin Hid]. apply Z.eqb_eq in Hid.
    assert (Hi : In i (map id db)) by (rewrite <- Hid; now apply in_map).
    split; [|split; intros Hnot; contradiction].
    split; [|tauto]. intros H. now apply update_outcome_not_404 in H.
  - apply find_id_none in Hf. cbn [fst snd].
    split; [rewrite no_such_id_404, int64_spec; tauto|].
    split; [|reflexivity].
    intros _ Hrange. apply no_such_id_500.
    destruct (int64 i) eqn:E; [|reflexivity].
    apply int64_spec in E. contradiction.
Qed.

Lemma update_employee_not_found_witness :
  ~ In (2 ^ 63) (map id [carol; dave]) /\ ~ (- 2 ^ 63 <= 2 ^ 63 < 2 ^ 63)
  /\ response (update_employee 200 (2 ^ 63) (salary_only None)) [carol; dave]
     = Error 500 "Internal Server Error".
Proof.
  assert (Hnot : ~ In (2 ^ 63) (map id [carol; dave])).
  { cbn. intros [H|[H|[]]]; discriminate H. }
  assert (Hrange : ~ (- 2 ^ 63 <= 2 ^ 63 < 2 ^ 63)) by lia.
  refine (conj Hnot (conj Hrange _)).
  exact (proj1 (proj2 (update_employee_not_found 200 (2 ^ 63) (salary_only None)
                         [carol; dave])) Hnot Hrange).
Defined.

(** A payload that sets [name], [role] or [salary] to null is accepted by
    the update schema but never applied: for a stored record the answer
    is 400 when the email test fails and 500 otherwise, and the table is
    unchanged. *)
Theorem update_null_required_field (now : Z) (u : EmployeeUpdate) (e : Employee)
    (db : Table) :
  primary_key db -> In e db ->
  u_name u = Some None \/ u_role u = Some None \/ u_salary u = Some None ->
  (response (update_employee now (id e) u) db
     = Error 400 "Email already registered"
   \/ response (update_employee now (id e) u) db
     = Error 500 "Internal Server Error")
  /\ db_after (update_employee now (id e) u) db = db.
Proof.
  intros Hpk Hin Hnull. unfold response, db_after.
  rewrite update_employee_run, (find_by_id db e Hpk Hin).
  unfold update_outcome.
  destruct (update_collides u e db); [split; [now left | reflexivity]|].
  cbv zeta.
  assert (Hch : net_change (of_row e) (updated_attrs u e) = true).
  { unfold net_change, updated_attrs, of_row.
    cbn [a_name a_role a_salary a_email a_department a_performance_rating a_skills].
    apply negb_true_iff.
    destruct Hnull as [H|[H|H]]; rewrite H; cbn [assigned str_opt_eqb q_opt_eqb opt_eqb];
      rewrite ?andb_false_r; reflexivity. }
  assert (Hw : written_row now e (updated_attrs u e) = None).
  { unfold written_row, updated_attrs.
    cbn [a_name a_role a_salary].
    destruct Hnull as [H|[H|H]]; rewrite H; cbn [assigned].
    - reflexivity.
    - destruct (assigned (u_name u) (Some (name e))); reflexivity.
    - destruct (assigned (u_name u) (Some (name e))),
        (assigned (u_role u) (Some (role e))); reflexivity. }
  rewrite Hch, Hw. cbn. split; [now right | reflexivity].
Qed.

Lemma update_null_required_field_witness :
  primary_key [carol; dave] /\ In carol [carol; dave]
  /\ db_after (update_employee 200 (id carol)
                 (mkUpdate (Some None) None None None None None None))
       [carol; dave]
     = [carol; dave].
Proof.
  assert (Hin : In carol [carol; dave]) by (left; reflexivity).
  refine (conj primary_key_carol_dave (conj Hin _)).
  exact (proj2 (update_null_required_field 200
                  (mkUpdate (Some None) None None None None None None)
                  carol [carol; dave] primary_key_carol_dave Hin
                  (or_introl eq_refl))).
Defined.

Lemma assigned_twice {A} (u : option (option A)) (old v : option A) :
  assigned u old = v -> assigned u v = v.
Proof. destruct u as [w|]; cbn; congruence. Qed.

Lemma written_row_attrs (now : Z) (u : EmployeeUpdate) (e e' : Employee) :
  written_row now e (updated_attrs u e) = Some e' ->
  updated_attrs u e' = of_row e'.
Proof.
  unfold written_row, updated_attrs, of_row.
  cbn [a_name a_role a_salary a_email a_department a_performance_rating a_skills].
  destruct (assigned (u_name u) (Some (name e))) as [n|] eqn:Hn; [|discriminate].
  destruct (assigned (u_role u) (Some (role e))) as [r|] eqn:Hr; [|discriminate].
  destruct (assigned (u_salary u) (Some (salary e))) as [s|] eqn:Hs; [|discriminate].
  intros [= <-]. cbn.
  rewrite (assigned_twice _ _ _ Hn), (assigned_twice _ _ _ Hr),
    (assigned_twice _ _ _ Hs).
  rewrite (assigned_twice (u_email u) (email e) _ eq_refl),
    (assigned_twice (u_department u) (department e) _ eq_refl),
    (assigned_twice (u_performance_rating u) (performance_rating e) _ eq_refl),
    (assigned_twice (u_skills u) (skills e) _ eq_refl).
  reflexivity.
Qed.

Lemma net_change_refl (a : Attrs) : net_change a a = false.
Proof.
  unfold net_change. now rewrite !str_opt_eqb_refl, !q_opt_eqb_refl.
Qed.

Lemma update_collides_own_email (u : EmployeeUpdate) (e : Employee) (t : Table) :
  assigned (u_email u) (email e) = email e -> update_collides u e t = false.
Proof.
  unfold update_collides. destruct (u_email u) as [[v|]|]; cbn; try reflexivity.
  intros <-. cbn. rewrite String.eqb_refl. cbn.
  now rewrite andb_false_r.
Qed.

(** Sending an accepted update a second time changes nothing: the answer
    is the same record and the table, [updated_at] included, stays as the
    first request left it. *)
Theorem update_employee_twice (now now' : Z) (u : EmployeeUpdate) (e e' : Employee)
    (db : Table) :
  primary_key db -> In e db ->
  response (update_employee now (id e) u) db = OK e' ->
  run (update_employee now' (id e) u) (db_after (update_employee now (id e) u) db)
  = (OK e', db_after (update_employee now (id e) u) db).
Proof.
  intros Hpk Hin. unfold response, db_after.
  rewrite (update_employee_run now), (find_by_id db e Hpk Hin).
  destruct (update_outcome_cases now u e db)
    as [[c [d H]]|[[Hsame H]|[w [Hch [Hw H]]]]]; rewrite H; cbn [fst snd];
    try discriminate; intros [= <-].
  - rewrite update_employee_run, (find_by_id db e Hpk Hin).
    revert H. unfold update_outcome.
    destruct (update_collides u e db); [discriminate|]. cbv zeta.
    now rewrite Hsame.
  - pose proof (written_row_id now e w _ Hw) as [Hid _].
    rewrite update_employee_run, (find_replace_row e w db Hid Hin).
    unfold update_outcome.
    rewrite (written_row_attrs now u e w Hw).
    rewrite update_collides_own_email.
    + cbv zeta. now rewrite net_change_refl.
    + pose proof (written_row_attrs now u e w Hw) as Ha.
      apply (f_equal a_email) in Ha. exact Ha.
Qed.

Lemma update_employee_twice_witness :
  primary_key [carol; dave] /\ In carol [carol; dave]
  /\ response (update_employee 200 (id carol) (salary_only (Some 95000%Q)))
       [carol; dave] = OK carol_raised
  /\ run (update_employee 300 (id carol) (salary_only (Some 95000%Q)))
       (db_after (update_employee 200 (id carol) (salary_only (Some 95000%Q)))
          [carol; dave])
     = (OK carol_raised,
        db_after (update_employee 200 (id carol) (salary_only (Some 95000%Q)))
          [carol; dave]).
Proof.
  assert (Hin : In carol [carol; dave]) by (left; reflexivity).
  assert (Hok : response (update_employee 200 (id carol)
                            (salary_only (Some 95000%Q))) [carol; dave]
                = OK carol_raised) by reflexivity.
  refine (conj primary_key_carol_dave (conj Hin (conj Hok _))).
  exact (update_employee_twice 200 300 (salary_only (Some 95000%Q)) carol
           carol_raised [carol; dave] primary_key_carol_dave Hin Hok).
Defined.

Lemma nth_error_replace_row (e e' : Employee) (t : Table) (k : nat) (r : Employee) :
  nth_error t k = Some r -> id r <> id e ->
  nth_error (replace_row e e' t) k = Some r.
Proof.
  intros Hk Hne. unfold replace_row.
  rewrite nth_error_map, Hk. cbn.
  destruct (Z.eqb_spec (id r) (id e)); [contradiction | reflexivity].
Qed.

(** An update request keeps the ids of the table in their order, so no
    record is added, removed or moved, and it keeps every record whose
    id is not the requested one at its place, unchanged. *)
Theorem update_employee_keeps_others (now i : Z) (u : EmployeeUpdate) (db : Table) :
  map id (db_after (update_employee now i u) db) = map id db
  /\ (forall k r, nth_error db k = Some r -> id r <> i ->
        nth_error (db_after (update_employee now i u) db) k = Some r).
Proof.
  unfold db_after. rewrite update_employee_run.
  destruct (find (fun r => id r =? i) db) as [e|] eqn:Hf; [|now split].
  apply find_some in Hf. destruct Hf as [_ Hid]. apply Z.eqb_eq in Hid. subst i.
  destruct (update_outcome_cases now u e db)
    as [[c [d ->]]|[[_ ->]|[e' [_ [Hw ->]]]]]; cbn [snd]; try now split.
  split.
  - apply map_id_replace_row. now apply (written_row_id now e e' _ Hw).
  - intros k r Hk Hne. now apply nth_error_replace_row.
Qed.

Lemma update_employee_keeps_others_witness :
  nth_error [carol; dave] 1 = Some dave /\ id dave <> 1
  /\ nth_error (db_after (update_employee 200 1 (salary_only (Some 95000%Q)))
                  [carol; dave]) 1 = Some dave.
Proof.
  assert (Hne : id dave <> 1) by discriminate.
  refine (conj eq_refl (conj Hne _)).
  exact (proj2 (update_employee_keeps_others 200 1 (salary_only (Some 95000%Q))
                  [carol; dave]) 1%nat dave eq_refl Hne).
Defined.

(** ** More on listing *)

(** A request whose offset and limit can be bound is answered. *)
Lemma get_employees_ok (skip limit : Z) (search department' : option string)
    (t : Table) :
  offset_fits t skip = true -> 0 <= limit < 2 ^ 63 ->
  run (get_employees skip limit search department') t
  = (OK (mkList (Z.of_nat (List.length (selected search department' t)))
                (firstn (Z.to_nat limit)
                   (skipn (Z.to_nat skip) (selected search department' t)))),
     t).
Proof.
  intros Hfit Hl. rewrite get_employees_run, Hfit.
  assert (H64 : int64 limit = true) by (apply int64_spec; lia).
  rewrite H64. cbn [andb].
  destruct (Z.ltb_spec limit 0); [lia | reflexivity].
Qed.

Lemma page_of_eq (skip limit : Z) (search department' : option string) (t : Table) :
  offset_fits t skip = true -> 0 <= limit < 2 ^ 63 ->
  page_of skip limit search department' t
  = firstn (Z.to_nat limit) (skipn (Z.to_nat skip) (selected search department' t)).
Proof.
  intros Hfit Hl. unfold page_of, response.
  now rewrite get_employees_ok.
Qed.

Lemma total_of_eq (search department' : option string) (t : Table) :
  total_of search department' t
  = Z.of_nat (List.length (selected search department' t)).
Proof.
  unfold total_of, response.
  rewrite get_employees_ok; [reflexivity | reflexivity | lia].
Qed.








(** *** What [contains] matches *)







(** ** More on the statistics *)

Lemma filter_not_and_is (k : option string) (l : list (option string)) :
  filter (fun x => negb (str_opt_eqb x k) && str_opt_eqb k x) l = [].
Proof.
  induction l as [|x l IHl]; cbn; [reflexivity|].
  rewrite (str_opt_eqb_sym k x).
  destruct (str_opt_eqb x k); cbn; exact IHl.
Qed.

(** The occurrences of the keys [gs] in [l], key by key. *)
Lemma count_without_key (k : option string) (gs l : list (option string)) :
  fold_right Z.add 0
    (map (fun g => Z.of_nat (List.length (filter (str_opt_eqb g) l)))
         (filter (fun g => negb (str_opt_eqb g k)) gs))
  = fold_right Z.add 0
      (map (fun g => Z.of_nat (List.length
                                 (filter (str_opt_eqb g)
                                    (filter (fun x => negb (str_opt_eqb x k)) l))))
           gs).
Proof.
  induction gs as [|g gs IH]; cbn [filter map fold_right]; [reflexivity|].
  rewrite filter_filter.
  destruct (str_opt_eqb g k) eqn:E; cbn [negb map fold_right filter].
  - apply str_opt_eqb_true in E. subst g. rewrite IH.
    rewrite filter_not_and_is. cbn. lia.
  - rewrite IH. f_equal. do 2 f_equal. apply filter_ext. intros x.
    destruct (str_opt_eqb g x) eqn:Ex; [|now rewrite andb_false_r].
    apply str_opt_eqb_true in Ex. subst x. now rewrite E.
Qed.

Lemma count_split (k : option string) (q : option string -> bool)
    (l : list (option string)) :
  Z.of_nat (List.length (filter (str_opt_eqb k) l))
  + Z.of_nat (List.length (filter q (filter (fun x => negb (str_opt_eqb x k)) l)))
  = Z.of_nat (List.length (filter (fun x => str_opt_eqb x k || q x) l)).
Proof.
  induction l as [|x l IH]; cbn [filter List.length]; [reflexivity|].
  rewrite (str_opt_eqb_sym k x).
  destruct (str_opt_eqb x k); cbn [negb orb filter List.length].
  - lia.
  - destruct (q x); cbn [List.length]; lia.
Qed.

Lemma group_count_total (ks l : list (option string)) :
  fold_right Z.add 0
    (map (fun g => Z.of_nat (List.length (filter (str_opt_eqb g) l)))
         (group_keys ks))
  = Z.of_nat (List.length (filter (fun x => existsb (str_opt_eqb x) ks) l)).
Proof.
  revert l. induction ks as [|k ks IH]; intros l; cbn [group_keys map fold_right existsb].
  - induction l as [|x l IHl]; cbn; [reflexivity | exact IHl].
  - rewrite count_without_key, IH. apply count_split.
Qed.

Lemma filter_all {A} (p : A -> bool) (l : list A) :
  (forall x, In x l -> p x = true) -> filter p l = l.
Proof.
  induction l as [|x l IH]; intros H; cbn; [reflexivity|].
  rewrite (H x (or_introl eq_refl)), IH; [reflexivity|].
  intros y Hy. apply H. now right.
Qed.

Lemma headcount_sum_group_count (ks : list (option string)) :
  headcount_sum (map (fun '(dept, count) => mkDept (or_Unassigned dept) count)
                     (group_count ks))
  = Z.of_nat (List.length ks).
Proof.
  unfold headcount_sum, group_count. rewrite !map_map. cbn [dept_count].
  rewrite group_count_total, filter_all; [reflexivity|].
  intros x Hx. apply existsb_exists. exists x. split; [exact Hx|].
  apply str_opt_eqb_refl.
Qed.

Lemma get_employee_stats_fields (datetime_now : Z) (db : Table) :
  exists s,
    response (get_employee_stats datetime_now) db = OK s
    /\ total_employees s = Z.of_nat (List.length db)
    /\ recent_hires s
       = Z.of_nat (List.length
                     (filter (fun e => datetime_now - thirty_days <=? created_at e) db))
    /\ departments s
       = map (fun '(dept, count) => mkDept (or_Unassigned dept) count)
             (group_count (map department db)).
Proof.
  unfold response, run, get_employee_stats. session. cbn.
  eexists. repeat split.
Qed.

(** The figures of the statistics add up: [total_employees] is the
    number of stored records, which is also the [total] of an unfiltered
    listing and the sum of the counts of the department breakdown; every
    entry of the breakdown counts at least one record; [recent_hires]
    lies between 0 and [total_employees]. *)
Theorem get_employee_stats_totals (datetime_now : Z) (db : Table) :
  exists s,
    response (get_employee_stats datetime_now) db = OK s
    /\ total_employees s = Z.of_nat (List.length db)
    /\ total_employees s = total_of None None db
    /\ headcount_sum (departments s) = total_employees s
    /\ (forall g, In g (departments s) -> 1 <= dept_count g)
    /\ 0 <= recent_hires s <= total_employees s.
Proof.
  destruct (get_employee_stats_fields datetime_now db)
    as [s [Hs [Htotal [Hrecent Hdept]]]].
  exists s. split; [exact Hs|]. split; [exact Htotal|].
  split; [|split; [|split]].
  - rewrite Htotal, total_of_eq. unfold selected. cbn. now rewrite filter_true.
  - rewrite Hdept, Htotal, headcount_sum_group_count. now rewrite length_map.
  - rewrite Hdept. intros g Hg. apply in_map_iff in Hg.
    destruct Hg as [[dept n] [<- Hin]].
    cbn. unfold group_count in Hin. apply in_map_iff in Hin.
    destruct Hin as [k [[= <- <-] Hk]].
    apply (proj1 (in_group_keys _ _)) in Hk.
    assert (Hin : In k (filter (str_opt_eqb k) (map department db))).
    { apply filter_In. split; [exact Hk | apply str_opt_eqb_refl]. }
    destruct (filter (str_opt_eqb k) (map department db)); [contradiction|].
    cbn [List.length]. lia.
  - rewrite Hrecent, Htotal.
    pose proof (filter_length_le
                  (fun e => datetime_now - thirty_days <=? created_at e) db).
    lia.
Qed.

(** ** More on the bulk import *)

Lemma email_taken_find (t : Table) (v : string) :
  email_taken t None (Some v)
  = match find (fun e => sql_eq (email e) v) t with
    | Some _ => true
    | None => false
    end.
Proof.
  cbn. rewrite <- existsb_find.
  induction t as [|e t IH]; cbn; [reflexivity|].
  now rewrite andb_true_r, IH.
Qed.

(** One iteration of the loop on a valid entry. *)
Lemma bulk_item_run (now : Z) (idx : nat) (p : EmployeeCreate)
    (created : list Z) (errors : list BulkError) (t committed : Table) :
  EmailStr (c_email p) ->
  bulk_item now idx p created errors (mkSession t committed false)
  = if email_taken t None (c_email p)
    then (Return (created,
                  errors ++ [mkBulkError idx (c_email p) "Email already exists"]),
          mkSession t committed false)
    else (Return (created ++ [next_id t], errors),
          mkSession (t ++ [new_row now p t]) committed false).
Proof.
  intros Hwf. unfold bulk_item.
  assert (Hins : email_taken t None (c_email p) = false ->
            try_except
              (db_employee <- add_flush now (model_dump p) ;;
               ret (created ++ [id db_employee], errors))
              (fun e => ret (created,
                             errors ++ [mkBulkError idx None (str_exception e)]))
              (mkSession t committed false)
            = (Return (created ++ [next_id t], errors),
               mkSession (t ++ [new_row now p t]) committed false)).
  { intros Ht. session. unfold add_flush, model_dump. cbn -[email_taken].
    rewrite Ht. reflexivity. }
  destruct (c_email p) as [v|] eqn:Hv.
  - destruct (String.eqb_spec v "") as [->|Hne]; [now elim Hwf|].
    rewrite email_taken_find in *.
    destruct (find (fun e => sql_eq (email e) v) t) as [r|] eqn:Hf.
    + session. cbn. now rewrite hd_error_filter, Hf.
    + specialize (Hins eq_refl). revert Hins. session. cbn -[add_flush].
      rewrite hd_error_filter, Hf. cbn -[add_flush]. intros Hins. exact Hins.
  - now apply Hins.
Qed.

Lemma bulk_loop_run (now : Z) (ps : list EmployeeCreate) (idx : nat)
    (created : list Z) (errors : list BulkError) (t committed : Table) :
  batch_valid ps ->
  bulk_loop now idx ps created errors (mkSession t committed false)
  = (Return (snd (bulk_outcome now idx ps t created errors)),
     mkSession (fst (bulk_outcome now idx ps t created errors)) committed false).
Proof.
  intros Hvalid. revert idx created errors t.
  induction Hvalid as [|p ps Hp Hps IH]; intros idx created errors t;
    cbn [bulk_loop bulk_outcome]; [reflexivity|].
  unfold bind at 1. rewrite (bulk_item_run now idx p created errors t committed Hp).
  destruct (email_taken t None (c_email p)); cbn [fst snd]; apply IH.
Qed.

(** [bulk_create_employees] on a valid batch, flattened. *)
Lemma bulk_create_employees_run (now : Z) (ps : list EmployeeCreate) (db : Table) :
  batch_valid ps ->
  run (bulk_create_employees now ps) db
  = (OK (mkBulk (Z.of_nat (List.length (fst (snd (bulk_outcome now 0 ps db [] [])))))
           (fst (snd (bulk_outcome now 0 ps db [] [])))
           (snd (snd (bulk_outcome now 0 ps db [] [])))),
     fst (bulk_outcome now 0 ps db [] [])).
Proof.
  intros Hvalid. unfold run, bulk_create_employees, bind at 1.
  rewrite (bulk_loop_run now ps 0 [] [] db db Hvalid).
  destruct (bulk_outcome now 0 ps db [] []) as [t' [ids errs]]. reflexivity.
Qed.

Lemma bulk_outcome_accounting (now : Z) (ps : list EmployeeCreate) (idx : nat)
    (t : Table) (created : list Z) (errors : list BulkError) :
  exists rows errs,
    bulk_outcome now idx ps t created errors
    = (t ++ rows, (created ++ map id rows, errors ++ errs))
    /\ (List.length rows + List.length errs = List.length ps)%nat
    /\ (forall err, In err errs ->
          (idx <= index err < idx + List.length ps)%nat
          /\ error err = "Email already exists"
          /\ error_email err <> None).
Proof.
  revert idx t created errors.
  induction ps as [|p ps IH]; intros idx t created errors; cbn [bulk_outcome].
  - exists [], []. cbn. rewrite !app_nil_r. repeat split; contradiction.
  - destruct (email_taken t None (c_email p)) eqn:Ht.
    + destruct (IH (S idx) t created
                  (errors ++ [mkBulkError idx (c_email p) "Email already exists"]))
        as [rows [errs [Heq [Hlen Herr]]]].
      exists rows, (mkBulkError idx (c_email p) "Email already exists" :: errs).
      rewrite Heq, <- app_assoc. cbn [app List.length].
      split; [reflexivity|]. split; [lia|].
      intros err [<-|Hin].
      * cbn. split; [lia|]. split; [reflexivity|].
        destruct (c_email p); [discriminate | discriminate Ht].
      * destruct (Herr err Hin) as [Hi Hrest]. split; [lia | exact Hrest].
    + destruct (IH (S idx) (t ++ [new_row now p t]) (created ++ [next_id t]) errors)
        as [rows [errs [Heq [Hlen Herr]]]].
      exists (new_row now p t :: rows), errs.
      rewrite Heq, <- !app_assoc. cbn [app List.length map].
      split; [reflexivity|]. split; [lia|].
      intros err Hin. destruct (Herr err Hin) as [Hi Hrest].
      split; [lia | exact Hrest].
Qed.

(** A batch whose emails are well formed is never turned down as a whole:
    the answer is a success, every entry is either created or reported,
    [created] counts the new rows, [employee_ids] lists their ids in the
    order of the table, the new rows follow the old ones, and each report
    carries the position of its entry, its email and the text "Email
    already exists". *)
Theorem bulk_create_employees_accounting (now : Z) (ps : list EmployeeCreate)
    (db : Table) :
  batch_valid ps ->
  exists r rows,
    run (bulk_create_employees now ps) db = (OK r, db ++ rows)
    /\ employee_ids r = map id rows
    /\ created r = Z.of_nat (List.length rows)
    /\ created r + Z.of_nat (List.length (errors r)) = Z.of_nat (List.length ps)
    /\ (forall err, In err (errors r) ->
          (index err < List.length ps)%nat
          /\ error err = "Email already exists"
          /\ error_email err <> None).
Proof.
  intros Hvalid. rewrite (bulk_create_employees_run now ps db Hvalid).
  destruct (bulk_outcome_accounting now ps 0 db [] [])
    as [rows [errs [-> [Hlen Herr]]]].
  cbn [fst snd app]. eexists. exists rows. split; [reflexivity|].
  cbn [employee_ids created errors]. rewrite length_map.
  split; [reflexivity|]. split; [reflexivity|]. split; [lia|].
  intros err Hin. destruct (Herr err Hin) as [Hi Hrest].
  split; [lia | exact Hrest].
Qed.

Lemma batch_valid_ann_ben : batch_valid [ann; ben; ann].
Proof. repeat constructor; discriminate. Defined.

Lemma bulk_create_employees_accounting_witness :
  batch_valid [ann; ben; ann]
  /\ exists r rows,
       run (bulk_create_employees 100 [ann; ben; ann]) [carol]
       = (OK r, [carol] ++ rows)
       /\ created r + Z.of_nat (List.length (errors r)) = 3.
Proof.
  split; [exact batch_valid_ann_ben|].
  destruct (bulk_create_employees_accounting 100 [ann; ben; ann] [carol]
              batch_valid_ann_ben) as [r [rows [Hrun [_ [_ [Hsum _]]]]]].
  exists r, rows. split; [exact Hrun | exact Hsum].
Defined.

Lemma create_employee_db_after (now : Z) (p : EmployeeCreate) (t : Table) :
  EmailStr (c_email p) ->
  db_after (create_employee now p) t
  = if email_taken t None (c_email p) then t else t ++ [new_row now p t].
Proof.
  intros Hwf. unfold db_after. rewrite create_employee_run.
  destruct (c_email p) as [v|]; [|reflexivity].
  destruct (String.eqb_spec v "") as [->|_]; [now elim Hwf|].
  destruct (email_taken t None (Some v)); reflexivity.
Qed.

Lemma bulk_outcome_create_each (now : Z) (ps : list EmployeeCreate) (idx : nat)
    (t : Table) (created : list Z) (errors : list BulkError) :
  batch_valid ps ->
  fst (bulk_outcome now idx ps t created errors) = create_each now ps t.
Proof.
  intros Hvalid. revert idx t created errors.
  induction Hvalid as [|p ps Hp Hps IH]; intros idx t created errors;
    cbn [bulk_outcome create_each fold_left]; [reflexivity|].
  rewrite (create_employee_db_after now p t Hp).
  destruct (email_taken t None (c_email p)); apply IH.
Qed.

Lemma bulk_db_after_create_each (now : Z) (ps : list EmployeeCreate) (db : Table) :
  batch_valid ps ->
  db_after (bulk_create_employees now ps) db = create_each now ps db.
Proof.
  intros Hvalid. unfold db_after.
  rewrite (bulk_create_employees_run now ps db Hvalid). cbn [snd].
  now apply bulk_outcome_create_each.
Qed.

(** Importing a batch whose emails are well formed leaves the table that
    sending its entries one by one to [create_employee] leaves. *)
Theorem bulk_create_employees_as_creates (now : Z) (ps : list EmployeeCreate)
    (db : Table) :
  batch_valid ps ->
  db_after (bulk_create_employees now ps) db
  = fold_left (fun t p => db_after (create_employee now p) t) ps db.
Proof.
  intros Hvalid. now apply bulk_db_after_create_each.
Qed.

Lemma bulk_create_employees_as_creates_witness :
  batch_valid [ann; ben; ann]
  /\ db_after (bulk_create_employees 100 [ann; ben; ann]) [carol]
     = db_after (create_employee 100 ann)
         (db_after (create_employee 100 ben)
            (db_after (create_employee 100 ann) [carol])).
Proof.
  split; [exact batch_valid_ann_ben|].
  exact (bulk_create_employees_as_creates 100 [ann; ben; ann] [carol]
           batch_valid_ann_ben).
Defined.

Lemma bulk_outcome_prefix (now : Z) (ps : list EmployeeCreate) (idx : nat)
    (t : Table) (created : list Z) (errors : list BulkError) :
  bulk_outcome now idx ps t created errors
  = (fst (bulk_outcome now idx ps t [] []),
     (created ++ fst (snd (bulk_outcome now idx ps t [] [])),
      errors ++ snd (snd (bulk_outcome now idx ps t [] [])))).
Proof.
  revert idx t created errors.
  induction ps as [|p ps IH]; intros idx t created errors; cbn [bulk_outcome].
  - cbn. now rewrite !app_nil_r.
  - destruct (email_taken t None (c_email p)).
    + rewrite (IH (S idx) t created (errors ++ _)), (IH (S idx) t [] ([] ++ _)).
      cbn [fst snd app]. now rewrite <- app_assoc.
    + rewrite (IH (S idx) _ (created ++ _) errors), (IH (S idx) _ ([] ++ _) []).
      cbn [fst snd app]. now rewrite <- app_assoc.
Qed.

Lemma bulk_outcome_index (now : Z) (ps : list EmployeeCreate) (idx : nat)
    (t : Table) (err : BulkError) :
  In err (snd (snd (bulk_outcome now idx ps t [] []))) -> (idx <= index err)%nat.
Proof.
  destruct (bulk_outcome_accounting now ps idx t [] [])
    as [rows [errs [-> [_ Herr]]]].
  cbn [fst snd app]. intros Hin. now apply Herr.
Qed.

Lemma email_taken_uses (t : Table) (p : EmployeeCreate) :
  email_taken t None (c_email p) = true
  <-> exists v, c_email p = Some v /\ uses_email t v.
Proof.
  destruct (c_email p) as [v|].
  - rewrite email_taken_insert. split.
    + intros H. now exists v.
    + now intros [w [[= <-] H]].
  - cbn. split; [discriminate | now intros [w [H _]]].
Qed.

Lemma bulk_outcome_reported (now : Z) (ps : list EmployeeCreate) (idx : nat)
    (t : Table) (k : nat) (p : EmployeeCreate) :
  nth_error ps k = Some p ->
  reported (idx + k) (snd (snd (bulk_outcome now idx ps t [] [])))
  <-> exists v, c_email p = Some v
                /\ (uses_email t v
                    \/ exists j q, (j < k)%nat /\ nth_error ps j = Some q
                                   /\ c_email q = Some v).
Proof.
  revert idx t k. induction ps as [|p0 ps IH]; intros idx t k Hk;
    [destruct k; discriminate|].
  cbn [bulk_outcome].
  destruct k as [|k]; cbn [nth_error] in Hk.
  - injection Hk as ->. rewrite Nat.add_0_r.
    destruct (email_taken t None (c_email p)) eqn:Ht.
    + rewrite bulk_outcome_prefix. cbn [fst snd app]. split.
      * intros _. apply email_taken_uses in Ht. destruct Ht as [v [Hv Hu]].
        exists v. split; [exact Hv | now left].
      * intros _. eexists. split; [left; reflexivity | reflexivity].
    + rewrite bulk_outcome_prefix. cbn [fst snd app]. split.
      * intros [err [Hin Hidx]]. apply bulk_outcome_index in Hin. lia.
      * intros [v [Hv [Hu|[j [q [Hj _]]]]]]; [|lia].
        assert (email_taken t None (c_email p) = true) as Ht'
            by (apply email_taken_uses; now exists v).
        congruence.
  - replace (idx + S k)%nat with (S idx + k)%nat by lia.
    destruct (email_taken t None (c_email p0)) eqn:Ht;
      rewrite bulk_outcome_prefix; cbn [fst snd app].
    + assert (Hrep : reported (S idx + k)
                       (mkBulkError idx (c_email p0) "Email already exists"
                        :: snd (snd (bulk_outcome now (S idx) ps t [] [])))
                     <-> reported (S idx + k)
                           (snd (snd (bulk_outcome now (S idx) ps t [] [])))).
      { unfold reported. split.
        - intros [err [[<-|Hin] Hidx]]; [cbn in Hidx; lia | now exists err].
        - intros [err [Hin Hidx]]. exists err. split; [now right | exact Hidx]. }
      rewrite Hrep, (IH (S idx) t k Hk).
      apply email_taken_uses in Ht. destruct Ht as [v0 [Hv0 Hu0]].
      split; intros [v [Hv H]]; exists v; (split; [exact Hv|]).
      * destruct H as [Hu|[j [q [Hj [Hq Hqv]]]]]; [now left|].
        right. exists (S j), q. repeat split; [lia | exact Hq | exact Hqv].
      * destruct H as [Hu|[[|j] [q [Hj [Hq Hqv]]]]]; [now left| |].
        -- cbn in Hq. injection Hq as <-. left. congruence.
        -- right. exists j, q. repeat split; [lia | exact Hq | exact Hqv].
    + rewrite (IH (S idx) (t ++ [new_row now p0 t]) k Hk).
      split; intros [v [Hv H]]; exists v; (split; [exact Hv|]).
      * destruct H as [Hu|[j [q [Hj [Hq Hqv]]]]].
        -- apply uses_email_app in Hu. destruct Hu as [Hu|Hrow]; [now left|].
           right. exists 0%nat, p0. repeat split; [lia | exact Hrow].
        -- right. exists (S j), q. repeat split; [lia | exact Hq | exact Hqv].
      * destruct H as [Hu|[[|j] [q [Hj [Hq Hqv]]]]].
        -- left. apply uses_email_app. now left.
        -- cbn in Hq. injection Hq as <-. left. apply uses_email_app. now right.
        -- right. exists j, q. repeat split; [lia | exact Hq | exact Hqv].
Qed.

(** Which entries of a batch are reported: in a batch whose emails are
    well formed, the entry at position [k] is reported exactly when it
    carries an email that a stored record holds or that an earlier entry
    of the same batch carries.  Duplicates inside one batch are thus
    turned down from the second occurrence on. *)
Theorem bulk_create_employees_reports (now : Z) (ps : list EmployeeCreate)
    (db : Table) (k : nat) (p : EmployeeCreate) :
  batch_valid ps -> nth_error ps k = Some p ->
  reported k (bulk_errors now ps db)
  <-> exists v, c_email p = Some v
                /\ (uses_email db v
                    \/ exists j q, (j < k)%nat /\ nth_error ps j = Some q
                                   /\ c_email q = Some v).
Proof.
  intros Hvalid Hk. unfold bulk_errors, response.
  rewrite (bulk_create_employees_run now ps db Hvalid). cbn [fst errors].
  exact (bulk_outcome_reported now ps 0 db k p Hk).
Qed.

Lemma bulk_create_employees_reports_witness :
  batch_valid [ann; ben; ann] /\ nth_error [ann; ben; ann] 1 = Some ben
  /\ reported 1 (bulk_errors 100 [ann; ben; ann] [carol]).
Proof.
  refine (conj batch_valid_ann_ben (conj eq_refl _)).
  apply (bulk_create_employees_reports 100 [ann; ben; ann] [carol] 1 ben
           batch_valid_ann_ben eq_refl).
  exists "a@x.com". split; [reflexivity|]. right.
  exists 0%nat, ann. repeat split. lia.
Defined.

(** ** Invariants of the stored records *)

Lemma new_row_valid (now : Z) (p : EmployeeCreate) (t : Table) :
  valid_create p -> row_valid (new_row now p t).
Proof.
  intros [Hn [Hr [Hs [He [Hd Hp]]]]]. unfold row_valid, new_row.
  cbn [name role salary email department performance_rating].
  split; [exact Hn|]. split; [exact Hr|]. split; [exact Hs|].
  split; [exact He|]. split; [exact Hd|].
  intros x [= <-]. destruct (c_performance_rating p) as [y|] eqn:Hy.
  - now apply (Hp y).
  - split; [apply Qle_refl | discriminate].
Qed.

Lemma written_row_valid (now : Z) (u : EmployeeUpdate) (e e' : Employee) :
  valid_update u -> row_valid e ->
  written_row now e (updated_attrs u e) = Some e' -> row_valid e'.
Proof.
  intros [Hn [Hr [Hs [He [Hd Hp]]]]] [Vn [Vr [Vs [Ve [Vd Vp]]]]].
  unfold written_row, updated_attrs.
  cbn [a_name a_role a_salary a_email a_department a_performance_rating a_skills].
  destruct (assigned (u_name u) (Some (name e))) as [n|] eqn:En; [|discriminate].
  destruct (assigned (u_role u) (Some (role e))) as [r|] eqn:Er; [|discriminate].
  destruct (assigned (u_salary u) (Some (salary e))) as [s|] eqn:Es; [|discriminate].
  intros [= <-]. unfold row_valid.
  cbn [name role salary email department performance_rating].
  split; [|split; [|split; [|split; [|split]]]].
  - destruct (u_name u) as [w|]; cbn in En; [subst w; now apply Hn|].
    now injection En as <-.
  - destruct (u_role u) as [w|]; cbn in Er; [subst w; now apply Hr|].
    now injection Er as <-.
  - destruct (u_salary u) as [w|]; cbn in Es; [subst w; now apply Hs|].
    now injection Es as <-.
  - destruct (u_email u) as [w|]; cbn in *; assumption.
  - destruct (u_department u) as [w|]; cbn in *; assumption.
  - destruct (u_performance_rating u) as [w|]; cbn in *; assumption.
Qed.

Lemma Forall_replace_row (P : Employee -> Prop) (e e' : Employee) (t : Table) :
  Forall P t -> P e' -> Forall P (replace_row e e' t).
Proof.
  intros Ht He'. unfold replace_row. apply Forall_map.
  apply (Forall_impl _ (P := P)); [|exact Ht].
  intros r Hr. destruct (id r =? id e); assumption.
Qed.

Lemma Forall_filter {A} (P : A -> Prop) (p : A -> bool) (l : list A) :
  Forall P l -> Forall P (filter p l).
Proof.
  intros H. apply Forall_forall. intros x Hx. apply filter_In in Hx.
  now apply (proj1 (Forall_forall P l) H).
Qed.

Lemma valid_create_batch (ps : list EmployeeCreate) :
  Forall valid_create ps -> batch_valid ps.
Proof.
  apply Forall_impl. intros p Hp. apply Hp.
Qed.

(** The constraints of the schema are an invariant of the table: when
    every stored record has a name and a role of 1 to 100 characters, a
    salary that is not negative, a department of at most 100 characters,
    a rating between 0 and 5 and an email that is not empty, the same
    holds after a creation, an update, a deletion or a bulk import whose
    payloads passed validation. *)
Theorem stored_records_stay_valid (db : Table) :
  Forall row_valid db ->
  (forall now p, valid_create p ->
                 Forall row_valid (db_after (create_employee now p) db))
  /\ (forall now i u, valid_update u ->
                      Forall row_valid (db_after (update_employee now i u) db))
  /\ (forall i, Forall row_valid (db_after (delete_employee i) db))
  /\ (forall now ps, Forall valid_create ps ->
                     Forall row_valid (db_after (bulk_create_employees now ps) db)).
Proof.
  intros Hdb.
  assert (Hcreate : forall now p t, valid_create p -> Forall row_valid t ->
            Forall row_valid (db_after (create_employee now p) t)).
  { intros now p t Hp Ht.
    rewrite create_employee_db_after by apply Hp.
    destruct (email_taken t None (c_email p)); [exact Ht|].
    apply Forall_app. split; [exact Ht|].
    constructor; [now apply new_row_valid | constructor]. }
  split; [|split; [|split]].
  - intros now p Hp. now apply Hcreate.
  - intros now i u Hu. unfold db_after. rewrite update_employee_run.
    destruct (find (fun r => id r =? i) db) as [e|] eqn:Hf; [|exact Hdb].
    apply find_some in Hf. destruct Hf as [Hin _].
    destruct (update_outcome_cases now u e db)
      as [[c [d ->]]|[[_ ->]|[e' [_ [Hw ->]]]]]; cbn [snd]; try exact Hdb.
    apply Forall_replace_row; [exact Hdb|].
    apply (written_row_valid now u e e' Hu); [|exact Hw].
    now apply (proj1 (Forall_forall row_valid db) Hdb).
  - intros i. unfold db_after. rewrite delete_employee_run.
    destruct (find (fun r => id r =? i) db); [|exact Hdb].
    cbn [snd]. now apply Forall_filter.
  - intros now ps Hps.
    rewrite bulk_db_after_create_each by now apply valid_create_batch.
    unfold create_each. revert db Hdb.
    induction Hps as [|p ps Hp Hps IH]; intros db Hdb; cbn [fold_left];
      [exact Hdb|].
    apply IH. now apply Hcreate.
Qed.

Lemma row_valid_carol : row_valid carol.
Proof.
  unfold row_valid, length_1_100, length_le_100, rating_0_5, EmailStr. cbn.
  split; [lia|]. split; [lia|]. split; [discriminate|]. split; [discriminate|].
  split.
  - intros s [= <-]. cbn. lia.
  - intros x [= <-]. split; discriminate.
Defined.

Lemma valid_create_ann : valid_create ann.
Proof.
  unfold valid_create, length_1_100, length_le_100, rating_0_5, EmailStr. cbn.
  split; [lia|]. split; [lia|]. split; [discriminate|]. split; [discriminate|].
  split.
  - intros s H. discriminate H.
  - intros x [= <-]. split; discriminate.
Defined.

Lemma stored_records_stay_valid_witness :
  Forall row_valid [carol] /\ valid_create ann
  /\ Forall row_valid (db_after (create_employee 100 ann) [carol]).
Proof.
  assert (Hdb : Forall row_valid [carol])
    by (constructor; [exact row_valid_carol | constructor]).
  refine (conj Hdb (conj valid_create_ann _)).
  exact (proj1 (stored_records_stay_valid [carol] Hdb) 100 ann valid_create_ann).
Defined.

Lemma timestamps_ordered_later (now now' : Z) (t : Table) :
  now <= now' -> timestamps_ordered now t -> timestamps_ordered now' t.
Proof.
  intros Hle Ht e He. destruct (Ht e He) as [Hc Hu]. split; [lia|].
  intros upd Hupd. specialize (Hu upd Hupd). lia.
Qed.

Lemma timestamps_ordered_app (now : Z) (t : Table) (e : Employee) :
  timestamps_ordered now t -> created_at e <= now -> updated_at e = None ->
  timestamps_ordered now (t ++ [e]).
Proof.
  intros Ht Hc Hu r Hr. apply in_app_iff in Hr. destruct Hr as [Hr|[<-|[]]].
  - now apply Ht.
  - split; [exact Hc|]. intros upd Hupd. congruence.
Qed.

(** With a database clock that does not run backwards, the timestamps
    stay in order: if at time [now] no stored record was created or
    updated in the future and none was updated before its creation, then
    so it is after a creation, an update, a deletion or a bulk import
    carried out at a later time [now']. *)
Theorem timestamps_stay_ordered (now now' : Z) (db : Table) :
  now <= now' -> timestamps_ordered now db ->
  (forall p, timestamps_ordered now' (db_after (create_employee now' p) db))
  /\ (forall i u, timestamps_ordered now' (db_after (update_employee now' i u) db))
  /\ (forall i, timestamps_ordered now' (db_after (delete_employee i) db))
  /\ (forall ps, batch_valid ps ->
        timestamps_ordered now' (db_after (bulk_create_employees now' ps) db)).
Proof.
  intros Hle Hnow. pose proof (timestamps_ordered_later now now' db Hle Hnow) as Hdb.
  clear Hnow.
  assert (Hcreate : forall p t, timestamps_ordered now' t ->
            timestamps_ordered now' (db_after (create_employee now' p) t)).
  { intros p t Ht. unfold db_after. rewrite create_employee_run.
    assert (Hins : timestamps_ordered now' (t ++ [new_row now' p t])).
    { apply timestamps_ordered_app; [exact Ht | cbn; lia | reflexivity]. }
    destruct (c_email p) as [v|]; [|exact Hins].
    destruct (String.eqb v ""), (email_taken t None (Some v)); cbn [snd];
      assumption. }
  split; [|split; [|split]].
  - intros p. now apply Hcreate.
  - intros i u. unfold db_after. rewrite update_employee_run.
    destruct (find (fun r => id r =? i) db) as [e|] eqn:Hf; [|exact Hdb].
    apply find_some in Hf. destruct Hf as [Hin _].
    destruct (update_outcome_cases now' u e db)
      as [[c [d ->]]|[[_ ->]|[e' [_ [Hw ->]]]]]; cbn [snd]; try exact Hdb.
    intros r Hr. unfold replace_row in Hr. apply in_map_iff in Hr.
    destruct Hr as [x [Hx Hxin]].
    destruct (id x =? id e); [|subst r; now apply Hdb].
    subst r. destruct (Hdb e Hin) as [Hc _].
    pose proof (written_row_id now' e e' _ Hw) as [_ Hcreated].
    assert (Hupd : updated_at e' = Some now').
    { revert Hw. unfold written_row.
      destruct (a_name (updated_attrs u e)), (a_role (updated_attrs u e)),
        (a_salary (updated_attrs u e)); try discriminate.
      now intros [= <-]. }
    rewrite Hcreated. split; [exact Hc|].
    intros upd Hu. rewrite Hupd in Hu. injection Hu as <-. lia.
  - intros i. unfold db_after. rewrite delete_employee_run.
    destruct (find (fun r => id r =? i) db); [|exact Hdb].
    cbn [snd]. intros r Hr. apply filter_In in Hr. now apply Hdb.
  - intros ps Hps. rewrite bulk_db_after_create_each by exact Hps.
    unfold create_each. clear Hps. revert db Hdb.
    induction ps as [|p ps IH]; intros db Hdb; cbn [fold_left]; [exact Hdb|].
    apply IH. now apply Hcreate.
Qed.

Lemma timestamps_stay_ordered_witness :
  100 <= 200 /\ timestamps_ordered 100 [carol]
  /\ timestamps_ordered 200
       (db_after (update_employee 200 1 (salary_only (Some 95000%Q))) [carol]).
Proof.
  assert (Hle : 100 <= 200) by lia.
  assert (Hdb : timestamps_ordered 100 [carol]).
  { intros e [<-|[]]. split; [cbn; lia | discriminate]. }
  refine (conj Hle (conj Hdb _)).
  exact (proj1 (proj2 (timestamps_stay_ordered 100 200 [carol] Hle Hdb)) 1
           (salary_only (Some 95000%Q))).
Defined.

(** ** Start-up migration *)

Section InitDatabase.

Variable Row : Type.









End InitDatabase.


Lemma primary_key_preserved_witness :
  primary_key [carol; dave]
  /\ primary_key (db_after (bulk_create_employees 100 [ann; ben; ann]) [carol; dave]).
Proof.
  split; [exact primary_key_carol_dave|].
  exact (proj2 (proj2 (proj2 (primary_key_preserved [carol; dave]
                                primary_key_carol_dave))) 100 [ann; ben; ann]).
Defined.

(** ** Requests one after the other *)

Lemma selected_all (t : Table) : selected None None t = t.
Proof. unfold selected. cbn. apply filter_true. Qed.

Lemma length_filter_other_ids (i : Z) (t : Table) :
  primary_key t -> In i (map id t) ->
  S (List.length (filter (fun r => negb (id r =? i)) t)) = List.length t.
Proof.
  unfold primary_key. induction t as [|x t IH]; cbn; [contradiction|].
  intros Hpk Hin. apply NoDup_cons_iff in Hpk. destruct Hpk as [Hx Hpk].
  destruct (Z.eqb_spec (id x) i) as [E|N]; cbn.
  - f_equal. f_equal. apply filter_all. intros r Hr. apply negb_true_iff.
    apply Z.eqb_neq. intros Hri. apply Hx. rewrite E, <- Hri. now apply in_map.
  - f_equal. apply IH; [exact Hpk|]. destruct Hin as [Hin|Hin]; [contradiction|].
    exact Hin.
Qed.

(** The unfiltered listing follows the writes: a creation raises [total]
    by one and the new record is the last of the listing; on a table with
    distinct ids a deletion lowers [total] by one. *)
Theorem listing_follows_writes (now i : Z) (p : EmployeeCreate) (db : Table) :
  (forall e, response (create_employee now p) db = OK e ->
     total_of None None (db_after (create_employee now p) db)
     = total_of None None db + 1
     /\ page_of (total_of None None db) 1 None None
          (db_after (create_employee now p) db) = [e])
  /\ (primary_key db -> In i (map id db) ->
      total_of None None (db_after (delete_employee i) db)
      = total_of None None db - 1).
Proof.
  split.
  - intros e Hok. destruct (create_employee_ok now p db e Hok) as [_ ->].
    rewrite !total_of_eq, !selected_all, length_app. cbn [List.length].
    split; [lia|].
    rewrite page_of_eq
      by (try apply offset_fits_position; rewrite ?length_app; cbn; lia).
    rewrite selected_all, Nat2Z.id.
    rewrite skipn_app, skipn_all, Nat.sub_diag. reflexivity.
  - intros Hpk Hin.
    unfold db_after. rewrite delete_employee_run.
    destruct (find (fun r => id r =? i) db) as [e|] eqn:Hf;
      [|apply find_id_none in Hf; contradiction].
    apply find_some in Hf. destruct Hf as [_ Hid]. apply Z.eqb_eq in Hid.
    subst i. cbn [snd]. rewrite !total_of_eq, !selected_all.
    pose proof (length_filter_other_ids (id e) db Hpk Hin). lia.
Qed.

Lemma listing_follows_writes_witness :
  primary_key [carol; dave] /\ In 1 (map id [carol; dave])
  /\ total_of None None (db_after (delete_employee 1) [carol; dave])
     = total_of None None [carol; dave] - 1.
Proof.
  assert (Hin : In 1 (map id [carol; dave])) by (left; reflexivity).
  refine (conj primary_key_carol_dave (conj Hin _)).
  exact (proj2 (listing_follows_writes 100 1 ann [carol; dave])
           primary_key_carol_dave Hin).
Defined.

(** Setting the email of a record to null releases it: the update
    succeeds, no record holds the email any more, and a creation with
    that email is then accepted. *)
Theorem update_releases_email (now now' : Z) (e : Employee) (v : string)
    (db : Table) :
  primary_key db -> emails_unique db -> In e db -> email e = Some v -> v <> "" ->
  (exists e', response (update_employee now (id e) (email_only None)) db = OK e'
              /\ email e' = None)
  /\ ~ uses_email (db_after (update_employee now (id e) (email_only None)) db) v
  /\ (forall p, c_email p = Some v ->
        exists r,
          response (create_employee now' p)
            (db_after (update_employee now (id e) (email_only None)) db)
          = OK r /\ email r = Some v).
Proof.
  intros Hpk Hu Hin Hv Hne.
  set (e' := mkEmployee (id e) (name e) (role e) (salary e) None (department e)
               (performance_rating e) (skills e) (created_at e) (Some now)).
  assert (Hout : update_outcome now (email_only None) e db
                 = (OK e', replace_row e e' db)).
  { unfold update_outcome, update_collides, net_change, written_row,
      updated_attrs, of_row, email_only.
    cbn [attr assigned u_name u_role u_salary u_email u_department
         u_performance_rating u_skills a_name a_role a_salary a_email
         a_department a_performance_rating a_skills].
    rewrite !str_opt_eqb_refl, !q_opt_eqb_refl, Hv. reflexivity. }
  assert (Hrun : run (update_employee now (id e) (email_only None)) db
                 = (OK e', replace_row e e' db)).
  { now rewrite update_employee_run, (find_by_id db e Hpk Hin). }
  assert (Hfree : ~ uses_email (replace_row e e' db) v).
  { intros [r [Hr Hrv]]. unfold replace_row in Hr. apply in_map_iff in Hr.
    destruct Hr as [x [Hx Hxin]].
    destruct (Z.eqb_spec (id x) (id e)) as [E|N].
    - subst r. discriminate.
    - subst r. apply N. f_equal.
      exact (emails_unique_same_row db x e v Hu Hxin Hin Hrv Hv). }
  unfold response, db_after. rewrite Hrun. cbn [fst snd].
  split; [exists e'; now split|]. split; [exact Hfree|].
  intros p Hp. exists (new_row now' p (replace_row e e' db)).
  rewrite create_employee_run, Hp.
  apply String.eqb_neq in Hne. rewrite Hne.
  destruct (email_taken (replace_row e e' db) None (Some v)) eqn:Ht.
  - apply email_taken_insert in Ht. contradiction.
  - cbn [fst]. split; [reflexivity | exact Hp].
Qed.

Lemma update_releases_email_witness :
  primary_key [carol; dave] /\ emails_unique [carol; dave]
  /\ In dave [carol; dave] /\ email dave = Some "dave@x.com" /\ "dave@x.com" <> ""
  /\ ~ uses_email (db_after (update_employee 200 (id dave) (email_only None))
                     [carol; dave]) "dave@x.com".
Proof.
  assert (Hin : In dave [carol; dave]) by (right; left; reflexivity).
  assert (Hne : "dave@x.com" <> "") by discriminate.
  refine (conj primary_key_carol_dave (conj emails_unique_carol_dave
            (conj Hin (conj eq_refl (conj Hne _))))).
  exact (proj1 (proj2 (update_releases_email 200 300 dave "dave@x.com"
                         [carol; dave] primary_key_carol_dave
                         emails_unique_carol_dave Hin eq_refl Hne))).
Defined.

Lemma uses_email_bulk_outcome (now : Z) (ps : list EmployeeCreate) (idx : nat)
    (t : Table) (created : list Z) (errors : list BulkError) (v : string) :
  uses_email t v \/ (exists p, In p ps /\ c_email p = Some v) ->
  uses_email (fst (bulk_outcome now idx ps t created errors)) v.
Proof.
  revert idx t created errors.
  induction ps as [|p ps IH]; intros idx t created errors H; cbn [bulk_outcome].
  - destruct H as [H|[p [[] _]]]. exact H.
  - destruct (email_taken t None (c_email p)) eqn:Ht.
    + apply IH. destruct H as [H|[q [[<-|Hq] Hqv]]].
      * now left.
      * left. rewrite Hqv in Ht. now apply email_taken_insert.
      * right. now exists q.
    + apply IH. destruct H as [H|[q [[<-|Hq] Hqv]]].
      * left. apply uses_email_app. now left.
      * left. apply uses_email_app. right. exact Hqv.
      * right. now exists q.
Qed.

Lemma bulk_outcome_all_taken (now : Z) (ps : list EmployeeCreate) (idx : nat)
    (t : Table) (created : list Z) (errors : list BulkError) :
  (forall p, In p ps -> exists v, c_email p = Some v /\ uses_email t v) ->
  fst (bulk_outcome now idx ps t created errors) = t
  /\ fst (snd (bulk_outcome now idx ps t created errors)) = created.
Proof.
  revert idx errors. induction ps as [|p ps IH]; intros idx errors H;
    cbn [bulk_outcome]; [now split|].
  assert (Ht : email_taken t None (c_email p) = true).
  { apply email_taken_uses. apply H. now left. }
  rewrite Ht. apply IH. intros q Hq. apply H. now right.
Qed.

(** Importing a batch a second time creates nothing when each of its
    entries carries an email: the second answer has [created = 0], no
    ids, and the table stays as the first import left it. *)
Theorem bulk_create_employees_again (now now' : Z) (ps : list EmployeeCreate)
    (db : Table) :
  batch_valid ps -> (forall p, In p ps -> c_email p <> None) ->
  exists errs,
    run (bulk_create_employees now' ps)
        (db_after (bulk_create_employees now ps) db)
    = (OK (mkBulk 0 [] errs), db_after (bulk_create_employees now ps) db).
Proof.
  intros Hvalid Hmail. unfold db_after at 1 2.
  rewrite (bulk_create_employees_run now ps db Hvalid). cbn [snd].
  set (db' := fst (bulk_outcome now 0 ps db [] [])).
  rewrite (bulk_create_employees_run now' ps db' Hvalid).
  assert (Hall : forall p, In p ps ->
            exists v, c_email p = Some v /\ uses_email db' v).
  { intros p Hp. destruct (c_email p) as [v|] eqn:Hv; [|now elim (Hmail p Hp)].
    exists v. split; [reflexivity|]. apply uses_email_bulk_outcome.
    right. now exists p. }
  destruct (bulk_outcome_all_taken now' ps 0 db' [] [] Hall) as [-> ->].
  eexists. reflexivity.
Qed.

Lemma bulk_create_employees_again_witness :
  batch_valid [ann; ben; ann] /\ (forall p, In p [ann; ben; ann] -> c_email p <> None)
  /\ db_after (bulk_create_employees 200 [ann; ben; ann])
       (db_after (bulk_create_employees 100 [ann; ben; ann]) [carol])
     = db_after (bulk_create_employees 100 [ann; ben; ann]) [carol].
Proof.
  assert (Hmail : forall p, In p [ann; ben; ann] -> c_email p <> None).
  { intros p [<-|[<-|[<-|[]]]]; discriminate. }
  refine (conj batch_valid_ann_ben (conj Hmail _)).
  destruct (bulk_create_employees_again 100 200 [ann; ben; ann] [carol]
              batch_valid_ann_ben Hmail) as [errs Hrun].
  unfold db_after at 1. rewrite Hrun. reflexivity.
Defined.

(** ** Rounding and the growth rate *)

Lemma round_half_even_bounds (y : Q) (a b : Z) :
  (inject_Z a <= y)%Q -> (y <= inject_Z b)%Q ->
  a <= round_half_even y <= b.
Proof.
  intros Ha Hb. unfold round_half_even.
  assert (Hfa : a <= Qfloor y).
  { rewrite <- (Qfloor_Z a). now apply Qfloor_resp_le. }
  assert (Hfb : Qfloor y <= b).
  { rewrite <- (Qfloor_Z b). now apply Qfloor_resp_le. }
  assert (Hup : (0 < y - inject_Z (Qfloor y))%Q -> Qfloor y + 1 <= b).
  { intros Hpos. destruct (Z.eq_dec (Qfloor y) b) as [E|N]; [|lia].
    exfalso. rewrite E in Hpos.
    apply (Qlt_irrefl 0). eapply Qlt_le_trans; [exact Hpos|].
    apply (Qplus_le_l _ _ (inject_Z b)). ring_simplify. exact Hb. }
  destruct (Qcompare_spec (y - inject_Z (Qfloor y)) (1 # 2)) as [E|L|G].
  - destruct (Z.even (Qfloor y)); [lia|]. split; [lia|].
    apply Hup. rewrite E. reflexivity.
  - lia.
  - split; [lia|]. apply Hup. eapply Qlt_trans; [|exact G]. reflexivity.
Qed.

Lemma round_bounds (x : Q) (a b : Z) (ndigits : nat) :
  (inject_Z a <= x)%Q -> (x <= inject_Z b)%Q ->
  (inject_Z a <= round x ndigits)%Q /\ (round x ndigits <= inject_Z b)%Q.
Proof.
  intros Ha Hb. unfold round.
  set (s := 10 ^ Z.of_nat ndigits).
  assert (Hs : 0 < s) by (apply Z.pow_pos_nonneg; lia).
  assert (Hsq : (0 < inject_Z s)%Q).
  { change 0%Q with (inject_Z 0). now rewrite <- Zlt_Qlt. }
  assert (Hlo : (inject_Z (a * s) <= x * inject_Z s)%Q).
  { rewrite inject_Z_mult. apply Qmult_le_compat_r; [exact Ha|].
    now apply Qlt_le_weak. }
  assert (Hhi : (x * inject_Z s <= inject_Z (b * s))%Q).
  { rewrite inject_Z_mult. apply Qmult_le_compat_r; [exact Hb|].
    now apply Qlt_le_weak. }
  destruct (round_half_even_bounds (x * inject_Z s) (a * s) (b * s) Hlo Hhi)
    as [Hr1 Hr2].
  split.
  - apply Qle_shift_div_l; [exact Hsq|].
    rewrite <- inject_Z_mult. now rewrite <- Zle_Qle.
  - apply Qle_shift_div_r; [exact Hsq|].
    rewrite <- inject_Z_mult. now rewrite <- Zle_Qle.
Qed.

Lemma get_employee_stats_growth_field (datetime_now : Z) (db : Table) :
  exists s,
    response (get_employee_stats datetime_now) db = OK s
    /\ total_employees s = Z.of_nat (List.length db)
    /\ recent_hires s
       = Z.of_nat (List.length
                     (filter (fun e => datetime_now - thirty_days <=? created_at e) db))
    /\ growth_rate s
       = if 0 <? total_employees s
         then round (inject_Z (recent_hires s) / inject_Z (total_employees s) * 100)%Q 1
         else 0%Q.
Proof.
  unfold response, run, get_employee_stats. session. cbn.
  eexists. repeat split.
Qed.

(** [growth_rate] is a percentage: it lies between 0 and 100 and is 0 on
    the empty table. *)
Theorem get_employee_stats_growth_rate (datetime_now : Z) (db : Table) :
  exists s,
    response (get_employee_stats datetime_now) db = OK s
    /\ (0 <= growth_rate s)%Q /\ (growth_rate s <= 100)%Q
    /\ (db = [] -> growth_rate s = 0%Q).
Proof.
  destruct (get_employee_stats_growth_field datetime_now db)
    as [s [Hs [Htotal [Hrecent Hgrowth]]]].
  exists s. split; [exact Hs|].
  assert (Hle : 0 <= recent_hires s <= total_employees s).
  { rewrite Hrecent, Htotal.
    pose proof (filter_length_le
                  (fun e => datetime_now - thirty_days <=? created_at e) db).
    lia. }
  rewrite Hgrowth.
  destruct (Z.ltb_spec 0 (total_employees s)) as [Hpos|Hzero].
  - assert (Htq : (0 < inject_Z (total_employees s))%Q).
    { change 0%Q with (inject_Z 0). now rewrite <- Zlt_Qlt. }
    assert (Hx0 : (inject_Z 0 <=
                   inject_Z (recent_hires s) / inject_Z (total_employees s) * 100)%Q).
    { apply Qmult_le_0_compat; [|discriminate].
      apply Qle_shift_div_l; [exact Htq|]. rewrite Qmult_0_l.
      change 0%Q with (inject_Z 0). rewrite <- Zle_Qle. lia. }
    assert (Hx1 : (inject_Z (recent_hires s) / inject_Z (total_employees s) * 100
                   <= inject_Z 100)%Q).
    { change (inject_Z 100) with (1 * 100)%Q.
      apply Qmult_le_compat_r; [|discriminate].
      apply Qle_shift_div_r; [exact Htq|]. rewrite Qmult_1_l.
      rewrite <- Zle_Qle. lia. }
    destruct (round_bounds _ 0 100 1 Hx0 Hx1) as [H0 H100].
    split; [exact H0|]. split; [exact H100|].
    intros ->. cbn in Htotal. lia.
  - split; [apply Qle_refl|]. split; [discriminate | reflexivity].
Qed.

Lemma get_employee_stats_growth_rate_witness :
  exists s, response (get_employee_stats 300) [] = OK s /\ growth_rate s = 0%Q.
Proof.
  destruct (get_employee_stats_growth_rate 300 []) as [s [Hs [_ [_ H0]]]].
  exists s. split; [exact Hs | exact (H0 eq_refl)].
Defined.

Lemma get_employee_stats_totals_witness :
  exists s, response (get_employee_stats 300) [carol; erin; frank] = OK s
            /\ headcount_sum (departments s) = 3.
Proof.
  destruct (get_employee_stats_totals 300 [carol; erin; frank])
    as [s [Hs [Htotal [_ [Hsum _]]]]].
  exists s. split; [exact Hs|]. rewrite Hsum, Htotal. reflexivity.
Defined.
